(** * Candidate acquisition-and-ranking pipeline

    A shallow embedding of [g3-engine/core/template_manager.py] (the
    git-backed template cache and the ad-hoc manifest fetcher) and of
    [g3-engine/agents/repo_scout.py] (discovery, heuristic scoring, deep
    read and AI adjudication), followed by the properties of the design
    document, each settled against the embedded code.

    Conventions.  Python objects that are mutated in place (the candidate
    records, the candidate list, the file system) live in an explicit
    state that is threaded through a state-and-exception monad, so that a
    [try]/[except] observes the state as it was when the exception was
    raised.  Everything outside the repository (the git executable, the
    HTTP endpoints, [json.loads], pydantic's field coercion, [os.getenv])
    is a parameter of the development.  Text is modelled as byte strings;
    [str.lower] and [str.strip] act on the ASCII range. *)

From stdpp Require Import gmap strings list fin_maps pretty sorting.
From Stdlib Require Import ZArith QArith Ascii.

Local Open Scope Z_scope.


(** ** The Python runtime fragment used by the two source files *)

Module Py.

(** The exception classes that the code raises or catches. *)
Inductive exn : Type :=
| KeyError
| IndexError
| TypeError
| AttributeError
| JSONDecodeError
| ValidationError            (* pydantic *)
| OSError                    (* FileNotFoundError, IsADirectoryError, ... *)
| HTTPError                  (* httpx transport errors and timeouts *)
| TemplateError (msg : string).

Inductive result (A : Type) : Type :=
| Ok (a : A)
| Raise (e : exn).
Global Arguments Ok {A} a.
Global Arguments Raise {A} e.

Definition is_ok {A} (r : result A) : bool :=
  match r with Ok _ => true | Raise _ => false end.

(** Statements: a computation over a mutable state [S] that either
    returns or raises; the state survives a raise. *)
Definition M (S A : Type) : Type := S -> result A * S.

Definition ret {S A} (a : A) : M S A := fun s => (Ok a, s).
Definition raise {S A} (e : exn) : M S A := fun s => (Raise e, s).
Definition bind {S A B} (c : M S A) (k : A -> M S B) : M S B :=
  fun s => match c s with
           | (Ok a, s') => k a s'
           | (Raise e, s') => (Raise e, s')
           end.
Definition get {S} : M S S := fun s => (Ok s, s).
Definition put {S} (s : S) : M S unit := fun _ => (Ok tt, s).
Definition modify {S} (f : S -> S) : M S unit := fun s => (Ok tt, f s).
Definition lift {S A} (r : result A) : M S A := fun s => (r, s).

(** [try: c except <classes>: h] where [handles] says which exception
    classes the clause names. *)
Definition try_except {S A} (c : M S A) (handles : exn -> bool)
           (h : exn -> M S A) : M S A :=
  fun s => match c s with
           | (Ok a, s') => (Ok a, s')
           | (Raise e, s') => if handles e then h e s' else (Raise e, s')
           end.

(** [except Exception] *)
Definition any_exception (e : exn) : bool := true.

(** [except TemplateError] *)
Definition is_TemplateError (e : exn) : bool :=
  match e with TemplateError _ => true | _ => false end.

Definition run {S A} (c : M S A) (s : S) : result A * S := c s.

(** Expressions: the same without state. *)
Definition rbind {A B} (r : result A) (k : A -> result B) : result B :=
  match r with
  | Ok a => k a
  | Raise e => Raise e
  end.
Definition rcatch {A} (r : result A) (handles : exn -> bool)
           (h : exn -> result A) : result A :=
  match r with
  | Ok a => Ok a
  | Raise e => if handles e then h e else Raise e
  end.
Fixpoint mapM {A B} (f : A -> result B) (l : list A) : result (list B) :=
  match l with
  | [] => Ok []
  | x :: r => rbind (f x) (fun y => rbind (mapM f r) (fun ys => Ok (y :: ys)))
  end.

(** *** Strings *)

Definition nl : string := String (ascii_of_nat 10) "".
Definition dquote : string := String (ascii_of_nat 34) "".

Definition ascii_lower (c : ascii) : ascii :=
  let n := nat_of_ascii c in
  if (Nat.leb 65 n && Nat.leb n 90)%bool then ascii_of_nat (n + 32) else c.

(** [s.lower()] *)
Fixpoint lower (s : string) : string :=
  match s with
  | EmptyString => EmptyString
  | String c r => String (ascii_lower c) (lower r)
  end.

(** [needle in hay] *)
Fixpoint str_in (needle hay : string) : bool :=
  (String.prefix needle hay ||
   match hay with
   | EmptyString => false
   | String _ r => str_in needle r
   end)%bool.

(** [s.replace(old, new)] for a non-empty [old]: leftmost,
    non-overlapping occurrences.  [skip] counts the characters of the
    occurrence just replaced that are still to be dropped. *)
Fixpoint replace_from (old new : string) (skip : nat) (s : string) : string :=
  match s with
  | EmptyString => EmptyString
  | String c r =>
      match skip with
      | S k => replace_from old new k r
      | O =>
          if String.prefix old s
          then new +:+ replace_from old new (String.length old - 1) r
          else String c (replace_from old new 0 r)
      end
  end.
Definition replace (old new s : string) : string := replace_from old new 0 s.

Definition is_space (c : ascii) : bool :=
  let n := nat_of_ascii c in
  ((Nat.leb 9 n && Nat.leb n 13) || (Nat.leb 28 n && Nat.leb n 32))%bool.

Fixpoint lstrip_by (p : ascii -> bool) (s : string) : string :=
  match s with
  | EmptyString => EmptyString
  | String c r => if p c then lstrip_by p r else s
  end.
Definition rstrip_by (p : ascii -> bool) (s : string) : string :=
  String.rev (lstrip_by p (String.rev s)).

(** [s.strip()] *)
Definition strip (s : string) : string := rstrip_by is_space (lstrip_by is_space s).

(** [s.rstrip("/")] *)
Definition rstrip_slash (s : string) : string :=
  rstrip_by (fun c => bool_decide (c = "/"%char)) s.

(** [sep.join(parts)] *)
Fixpoint join (sep : string) (parts : list string) : string :=
  match parts with
  | [] => ""
  | [p] => p
  | p :: rest => p +:+ sep +:+ join sep rest
  end.

(** Truthiness of an optional string ([None] and [""] are falsy). *)
Definition truthy_str (o : option string) : bool :=
  match o with
  | None | Some EmptyString => false
  | Some _ => true
  end.

(** *** JSON values as [json.loads] and [resp.json()] build them.
    An object is the association list of its items, keys distinct.
    JSON [null] is Python's [None]. *)
#[warnings="-register-all"]
Inductive json : Type :=
| JNull
| JBool (b : bool)
| JInt (z : Z)
| JFloat (q : Q)
| JStr (s : string)
| JArr (l : list json)
| JObj (kvs : list (string * json)).

Fixpoint assoc (k : string) (kvs : list (string * json)) : option json :=
  match kvs with
  | [] => None
  | (k', v) :: r => if bool_decide (k' = k) then Some v else assoc k r
  end.

(** [bool(v)] *)
Definition truthy (v : json) : bool :=
  match v with
  | JNull => false
  | JBool b => b
  | JInt z => negb (Z.eqb z 0)
  | JFloat q => negb (Qeq_bool q 0)
  | JStr s => negb (bool_decide (s = ""))
  | JArr l => match l with [] => false | _ => true end
  | JObj kvs => match kvs with [] => false | _ => true end
  end.

(** [v[k]] for a string key [k] *)
Definition getitem_key (v : json) (k : string) : result json :=
  match v with
  | JObj kvs => match assoc k kvs with Some x => Ok x | None => Raise KeyError end
  | _ => Raise TypeError
  end.

(** [v[0]] *)
Definition getitem_0 (v : json) : result json :=
  match v with
  | JArr (x :: _) => Ok x
  | JArr [] => Raise IndexError
  | JStr (String c _) => Ok (JStr (String c ""))
  | JStr EmptyString => Raise IndexError
  | JObj _ => Raise KeyError
  | _ => Raise TypeError
  end.

(** [v.get(k)] and [v.get(k, dflt)]: only dicts have [get]. *)
Definition dict_get_default (v : json) (k : string) (dflt : json) : result json :=
  match v with
  | JObj kvs => Ok (default dflt (assoc k kvs))
  | _ => Raise AttributeError
  end.
Definition dict_get (v : json) (k : string) : result json :=
  dict_get_default v k JNull.

(** [for item in v] *)
Definition iter (v : json) : result (list json) :=
  match v with
  | JArr l => Ok l
  | JObj kvs => Ok (map (fun kv => JStr (fst kv)) kvs)
  | JStr s => Ok (map (fun c => JStr (String c "")) (String.list_ascii_of_string s))
  | _ => Raise TypeError
  end.

(** The receiver of a [str] method call. *)
Definition as_str (v : json) : result string :=
  match v with
  | JStr s => Ok s
  | _ => Raise AttributeError
  end.

(** [0 <= v < n] with Python's chained comparison. *)
Definition in_range (v : json) (n : nat) : result bool :=
  match v with
  | JBool b => Ok (Z.ltb (if b then 1 else 0) (Z.of_nat n))
  | JInt z => Ok (Z.leb 0 z && Z.ltb z (Z.of_nat n))%bool
  | JFloat q => Ok (Qle_bool 0 q && negb (Qle_bool (inject_Z (Z.of_nat n)) q))%bool
  | _ => Raise TypeError
  end.

(** [operator.index(v)]: what a list accepts as a subscript. *)
Definition index (v : json) : result Z :=
  match v with
  | JBool b => Ok (if b then 1 else 0)
  | JInt z => Ok z
  | _ => Raise TypeError
  end.

(** Resolution of a possibly negative list subscript. *)
Definition norm_index (z : Z) (n : nat) : option nat :=
  let i := if Z.ltb z 0 then z + Z.of_nat n else z in
  if (Z.leb 0 i && Z.ltb i (Z.of_nat n))%bool then Some (Z.to_nat i) else None.

(** [l[z]] *)
Definition list_getitem {A} (l : list A) (z : Z) : result A :=
  match norm_index z (length l) with
  | Some i => match l !! i with Some x => Ok x | None => Raise IndexError end
  | None => Raise IndexError
  end.

(** [l.pop(z)], returning the shortened list *)
Definition list_pop {A} (l : list A) (z : Z) : result (list A) :=
  match norm_index z (length l) with
  | Some i => Ok (delete i l)
  | None => Raise IndexError
  end.

End Py.
Import Py.

Notation "'let*' x ':=' c 'in' k" := (bind c (fun x => k))
  (at level 10, x name, c at level 100, k at level 200).
Notation "c ';;;' k" := (bind c (fun _ => k))
  (at level 100, k at level 200, right associativity).
Notation "'let+' x ':=' c 'in' k" := (rbind c (fun x => k))
  (at level 10, x name, c at level 100, k at level 200).

(** ** [core/template_manager.py] *)

(** A [pathlib.Path] is the list of its parts; an absolute path starts
    with the part ["/"]. *)
Abbreviation path := (list string).

Fixpoint split_slash (cur : string) (s : string) : list string :=
  match s with
  | EmptyString => [String.rev cur]
  | String c r =>
      if bool_decide (c = "/"%char)
      then String.rev cur :: split_slash "" r
      else split_slash (String c cur) r
  end.

Definition keep_part (x : string) : bool :=
  negb (bool_decide (x = "") || bool_decide (x = "."))%bool.

(** [Path(s).parts] *)
Definition parts_of (s : string) : path :=
  let segs := List.filter keep_part (split_slash "" s) in
  if String.prefix "/" s then "/" :: segs else segs.

(** [p / s]: an absolute right operand replaces the left one. *)
Definition path_join (p : path) (s : string) : path :=
  match parts_of s with
  | "/" :: q => "/" :: q
  | q => p ++ q
  end.

(** The file system: which paths exist, and what they are. *)
Inductive node : Type :=
| Dir
| File (content : string).

(** The outside world of the template manager: the file system and the
    git commands issued so far, each with its working directory. *)
Record world : Type := World {
  files : gmap path node;
  git_log : list (list string * path)
}.

(** How an invocation of the git executable ends: exit status zero,
    a non-zero exit status ([subprocess.CalledProcessError]), or the
    process could not be started at all. *)
Inductive git_exit : Type :=
| GitOk (stdout : string)
| GitFailed (stderr : string)
| GitNotStarted.

(** One entry of the registry document, as [_load_registry] keeps it:
    the string-valued fields that the code reads; [None] is an absent
    key. *)
Record template_meta : Type := TemplateMeta {
  type_ : option string;
  repository : option string;
  branch : option string;
  sub_path : option string
}.

Definition path_exists (p : path) (w : world) : bool :=
  bool_decide (is_Some (files w !! p)).

(** The non-empty prefixes of a path, shortest first. *)
Fixpoint ancestors_and_self (pre : path) (p : path) : list path :=
  match p with
  | [] => []
  | x :: r => (pre ++ [x]) :: ancestors_and_self (pre ++ [x]) r
  end.

Fixpoint mkdir_each (ps : list path) : M world unit :=
  match ps with
  | [] => ret tt
  | q :: r =>
      let* w := get in
      match files w !! q with
      | Some (File _) => raise OSError
      | Some Dir => mkdir_each r
      | None =>
          put {| files := <[q := Dir]> (files w); git_log := git_log w |} ;;;
          mkdir_each r
      end
  end.

(** [p.mkdir(parents=True, exist_ok=True)] *)
Definition mkdir_p (p : path) : M world unit :=
  mkdir_each (ancestors_and_self [] p).

(** Everything at or below [dir] disappears. *)
Definition remove_tree (dir : path) (w : world) : world :=
  {| files := filter (fun kv : path * node => ¬ dir `prefix_of` kv.1) (files w);
     git_log := git_log w |}.

(** [shutil.rmtree(dir)] *)
Definition rmtree (dir : path) : M world unit :=
  let* w := get in
  match files w !! dir with
  | Some Dir => put (remove_tree dir w)
  | _ => raise OSError
  end.

(** [with open(p, 'w') as f: f.write(text)] *)
Definition write_text (p : path) (text : string) : M world unit :=
  let* w := get in
  match files w !! removelast p, files w !! p with
  | Some Dir, Some Dir => raise OSError
  | Some Dir, _ =>
      put {| files := <[p := File text]> (files w); git_log := git_log w |}
  | _, _ => raise OSError
  end.

(** The error that [_run_git] raises for a non-zero exit status. *)
Definition git_error (args : list string) (err : string) : exn :=
  TemplateError
    ("Git command failed: " +:+ join " " args +:+ nl +:+ "Error: " +:+ err).

Section TemplateManager.

(** The git executable: from the invocations so far, the arguments,
    the working directory and the file system, how it exits and what
    it leaves on disk. *)
Variable git :
  list (list string * path) -> list string -> path -> gmap path node ->
  git_exit * gmap path node.

(** [self.cache_base] and [self.registry] *)
Variable cache_base : path.
Variable registry : gmap string template_meta.

Definition _run_git (args : list string) (cwd : path) : M world string :=
  fun w =>
    let '(ex, files') := git (git_log w) args cwd (files w) in
    let w' := {| files := files'; git_log := git_log w ++ [(args, cwd)] |} in
    match ex with
    | GitOk out => (Ok (strip out), w')
    | GitFailed err => (Raise (git_error args err), w')
    | GitNotStarted => (Raise OSError, w')
    end.

Definition _fetch_git_repo (target_dir : path) (meta : template_meta)
  : M world unit :=
  let* repo_url :=
    lift (match repository meta with
          | Some r => Ok r
          | None => Raise KeyError
          end) in
  let branch := default "master" (branch meta) in
  let sub_path := sub_path meta in
  (* 1. Create directory *)
  mkdir_p target_dir ;;;
  (* 2. Init and Config *)
  _run_git ["init"] target_dir ;;;
  _run_git ["remote"; "add"; "origin"; repo_url] target_dir ;;;
  (* 3. Sparse Checkout Setup (if sub_path is defined) *)
  (if truthy_str sub_path then
     _run_git ["config"; "core.sparseCheckout"; "true"] target_dir ;;;
     write_text
       (path_join (path_join (path_join target_dir ".git") "info") "sparse-checkout")
       (default "" sub_path +:+ nl)
   else ret tt) ;;;
  (* 4. Pull *)
  try_except
    (_run_git ["pull"; "--depth"; "1"; "origin"; branch] target_dir ;;; ret tt)
    is_TemplateError
    (fun e => rmtree target_dir ;;; raise e).

Definition _update_git_repo (target_dir : path) (meta : template_meta)
  : M world unit :=
  let branch := default "master" (branch meta) in
  _run_git ["fetch"; "--depth"; "1"; "origin"; branch] target_dir ;;;
  _run_git ["reset"; "--hard"; "origin/" +:+ branch] target_dir ;;;
  ret tt.

(** [get_template_path], lines 59-68: cache hit, update in place, or
    fresh download. *)
Definition ensure_cached (cache_path : path) (template_meta : template_meta)
           (force_update : bool) : M world unit :=
  let* w := get in
  if path_exists cache_path w then
    if force_update then _update_git_repo cache_path template_meta
    else ret tt
  else _fetch_git_repo cache_path template_meta.

Definition sub_path_error (sub template_key : string) : exn :=
  TemplateError
    ("Sub-path '" +:+ sub +:+ "' not found in repo for " +:+ template_key).

Definition get_template_path (template_key : string) (force_update : bool)
  : M world path :=
  match registry !! template_key with
  | None =>
      raise (TemplateError
               ("Template '" +:+ template_key +:+ "' not defined in registry."))
  | Some template_meta =>
      let cache_path := path_join cache_base template_key in
      if negb (bool_decide (type_ template_meta = Some "git")) then
        raise (TemplateError
                 ("Unsupported template type: " +:+
                  default "None" (type_ template_meta)))
      else
        (* Check if exists *)
        ensure_cached cache_path template_meta force_update ;;;
        (* Return specific sub-path if requested *)
        if truthy_str (sub_path template_meta) then
          let sub := default "" (sub_path template_meta) in
          let target_path := path_join cache_path sub in
          let* w := get in
          if negb (path_exists target_path w) then
            raise (sub_path_error sub template_key)
          else ret target_path
        else ret cache_path
  end.

Definition target_files : list string :=
  ["pom.xml"; "package.json"; "build.gradle"; "README.md"].

(** Step 4 of [fetch_analysis_files]: a file that exists is read; a
    read that raises (here: the path is a directory) is passed over. *)
Definition read_targets (temp_path : path) (w : world) : gmap string string :=
  foldl (fun results filename =>
           match files w !! path_join temp_path filename with
           | Some (File text) => <[filename := text]> results
           | Some Dir => results
           | None => results
           end) ∅ target_files.

(** [temp_path] is the directory that [tempfile.TemporaryDirectory]
    creates on entry and removes on exit. *)
Definition fetch_analysis_files (temp_path : path) (repo_url : string)
           (branch : string) : M world (gmap string string) :=
  modify (fun w => {| files := <[temp_path := Dir]> (files w);
                      git_log := git_log w |}) ;;;
  let* results :=
    try_except
      ((* 1. Initialize *)
       _run_git ["init"] temp_path ;;;
       _run_git ["remote"; "add"; "origin"; repo_url] temp_path ;;;
       (* 2. Sparse checkout config *)
       _run_git ["config"; "core.sparseCheckout"; "true"] temp_path ;;;
       write_text
         (path_join (path_join (path_join temp_path ".git") "info") "sparse-checkout")
         (String.concat "" (map (fun tf => tf +:+ nl) target_files)) ;;;
       (* 3. Pull *)
       _run_git ["pull"; "--depth"; "1"; "origin"; branch] temp_path ;;;
       (* 4. Read files *)
       let* w := get in
       ret (read_targets temp_path w))
      any_exception
      (fun _ => ret ∅) in
  modify (remove_tree temp_path) ;;;
  ret results.

End TemplateManager.

Global Arguments _run_git : simpl never.
Global Arguments _fetch_git_repo : simpl never.
Global Arguments _update_git_repo : simpl never.
Global Arguments ensure_cached : simpl never.

(** *** Construction: [__init__] and [_load_registry] *)

(** [str(p)] *)
Definition path_str (p : path) : string :=
  match p with
  | [] => "."
  | "/" :: r => "/" +:+ join "/" r
  | _ => join "/" p
  end.

(** [open(p, 'r')] followed by reading the whole file. *)
Definition read_file (p : path) (w : world) : result string :=
  match files w !! p with
  | Some (File content) => Ok content
  | _ => Raise OSError
  end.

(** A [dict] whose keys are JSON scalars: the association list of its
    items in insertion order.  Keys are compared as Python compares
    them, so [1], [1.0] and [True] are one key. *)
Definition key_num (k : json) : option Q :=
  match k with
  | JBool b => Some (inject_Z (if b then 1 else 0))
  | JInt z => Some (inject_Z z)
  | JFloat q => Some q
  | _ => None
  end.

Definition key_eq (a b : json) : bool :=
  match a, b with
  | JNull, JNull => true
  | JStr s, JStr t => bool_decide (s = t)
  | _, _ =>
      match key_num a, key_num b with
      | Some x, Some y => Qeq_bool x y
      | _, _ => false
      end
  end.

(** Lists and dicts cannot be keys. *)
Definition hashable (k : json) : result json :=
  match k with
  | JArr _ | JObj _ => Raise TypeError
  | _ => Ok k
  end.

(** [d[k] = v] *)
Fixpoint dict_set (k v : json) (d : list (json * json)) : list (json * json) :=
  match d with
  | [] => [(k, v)]
  | (k', v') :: r =>
      if key_eq k' k then (k', v) :: r else (k', v') :: dict_set k v r
  end.

(** [d.get(k)] *)
Fixpoint dict_find (k : json) (d : list (json * json)) : option json :=
  match d with
  | [] => None
  | (k', v') :: r => if key_eq k' k then Some v' else dict_find k r
  end.

(** One step of the comprehension [{t['key']: t for t in ...}]. *)
Definition keyed (t : json) : result (json * json) :=
  let+ k := getitem_key t "key" in
  let+ k := hashable k in
  Ok (k, t).

Section TemplateManagerInit.

(** [json.load] on the text of the file *)
Variable json_loads : string -> result json.
(** [str(e)] *)
Variable exn_str : exn -> string.

Definition _load_registry (registry_path : path)
  : M world (list (json * json)) :=
  let* w := get in
  if negb (path_exists registry_path w) then
    raise (TemplateError ("Registry not found at " +:+ path_str registry_path))
  else
    try_except
      (let* content := lift (read_file registry_path w) in
       let* data := lift (json_loads content) in
       (* Convert list to dict for O(1) lookup *)
       let* templates := lift (dict_get_default data "templates" (JArr [])) in
       let* templates := lift (iter templates) in
       let* items := lift (mapM keyed templates) in
       ret (foldl (fun d kt => dict_set kt.1 kt.2 d) [] items))
      any_exception
      (fun e => raise (TemplateError ("Failed to load registry: " +:+ exn_str e))).

(** The constructor; its value is [self.registry]. *)
Definition __init__ (registry_path : path) (cache_dir : path)
  : M world (list (json * json)) :=
  let* registry := _load_registry registry_path in
  (* Ensure cache directory exists *)
  let* w := get in
  (if negb (path_exists cache_dir w) then mkdir_p cache_dir else ret tt) ;;;
  ret registry.

End TemplateManagerInit.

Global Arguments _load_registry : simpl never.

(** ** [agents/repo_scout.py] *)

Record RepoCandidate : Type := mkRepoCandidate {
  name : string;
  url : string;
  description : string;
  stars : Z;
  match_score : Z;
  analysis_reason : string
}.

Definition set_match_score (v : Z) (c : RepoCandidate) : RepoCandidate :=
  {| name := name c; url := url c; description := description c;
     stars := stars c; match_score := v; analysis_reason := analysis_reason c |}.

Definition set_analysis_reason (v : string) (c : RepoCandidate) : RepoCandidate :=
  {| name := name c; url := url c; description := description c;
     stars := stars c; match_score := match_score c; analysis_reason := v |}.

(** How an HTTP call ends: the client raises (transport error, timeout),
    or a response arrives with its status code and what [resp.json()]
    gives on it. *)
Inductive http_response : Type :=
| HttpRaises (e : exn)
| HttpResponse (status_code : Z) (json_body : result json).

(** The request posted to the reasoning service. *)
Record chat_request : Type := ChatRequest {
  target_url : string;
  authorization : string;
  model : string;
  system_prompt : string;
  user_prompt : string
}.

(** Candidates are objects: the list holds references into [objs], and
    a mutation through one reference is seen through every other. *)
Record scout_state : Type := ScoutState {
  objs : gmap nat RepoCandidate;
  candidates : list nat
}.

Definition on_objs (f : gmap nat RepoCandidate -> gmap nat RepoCandidate)
           (st : scout_state) : scout_state :=
  {| objs := f (objs st); candidates := candidates st |}.

Definition on_candidates (f : list nat -> list nat) (st : scout_state) : scout_state :=
  {| objs := objs st; candidates := f (candidates st) |}.

(** [results.sort(key=lambda x: x.match_score, reverse=True)]: the sort
    is stable, also with [reverse=True]. *)
Fixpoint insert_desc (x : RepoCandidate) (l : list RepoCandidate) : list RepoCandidate :=
  match l with
  | [] => [x]
  | y :: r =>
      if Z.ltb (match_score x) (match_score y) then y :: insert_desc x r
      else x :: y :: r
  end.
Definition sort_desc (l : list RepoCandidate) : list RepoCandidate :=
  foldr insert_desc [] l.

Definition _mock_search_github (query : string) : list RepoCandidate :=
  [ {| name := "jeecg-boot-module-demo";
       url := "https://github.com/jeecgboot/jeecg-boot.git";
       description := "Official JeecgBoot demo module. Contains standard CRUD patterns.";
       stars := 3500; match_score := 0; analysis_reason := "" |};
    {| name := "jeepay-payment-system";
       url := "https://github.com/jeequan/jeepay.git";
       description := "Open source payment system. High complexity, standalone app.";
       stars := 1200; match_score := 0; analysis_reason := "" |};
    {| name := "stripe-java-sdk";
       url := "https://github.com/stripe/stripe-java.git";
       description := "Official Stripe SDK. Low level library, not a module.";
       stars := 5000; match_score := 0; analysis_reason := "" |} ].

(** The two locals [score] and [reason] of [_analyze_match]. *)
Definition add_score (d : Z) : M (Z * string) unit :=
  modify (fun st => (st.1 + d, st.2)).
Definition set_score (v : Z) : M (Z * string) unit :=
  modify (fun st => (v, st.2)).
Definition add_reason (t : string) : M (Z * string) unit :=
  modify (fun st => (st.1, st.2 +:+ t)).
Definition set_reason (t : string) : M (Z * string) unit :=
  modify (fun st => (st.1, t)).

(** [_analyze_match], lines 236-246: the requirement-keyword rules. *)
Definition keyword_rules (candidate : RepoCandidate) (requirement : string)
  : M (Z * string) unit :=
  let req_lower := lower requirement in
  let name_lower := lower (name candidate) in
  let desc_lower := lower (description candidate) in
  (if (str_in "jeecg" req_lower && str_in "jeecg" name_lower)%bool then
     add_score 30 ;;;
     set_reason "High affinity: Jeecg module pattern detected."
   else ret tt) ;;;
  (if (str_in "stripe" req_lower && str_in "stripe" name_lower)%bool then
     if str_in "sdk" desc_lower then
       set_score 40 ;;;
       set_reason "Low affinity: SDK library (requires wrapping)."
     else
       add_score 40 ;;;
       set_reason "Good match: Payment implementation found."
   else ret tt).

Definition standalone_warning : string :=
  " Warning: Standalone system, migration might be complex.".

(** [_analyze_match], lines 248-251: penalty for standalone apps if we
    want a module. *)
Definition penalty_rule (candidate : RepoCandidate) : M (Z * string) unit :=
  let desc_lower := lower (description candidate) in
  if (str_in "system" desc_lower && negb (str_in "module" desc_lower))%bool then
    add_score (-10) ;;;
    add_reason standalone_warning
  else ret tt.

(** [_analyze_match], lines 229-251: everything before the deep read,
    from the baseline on. *)
Definition heuristic_rules (candidate : RepoCandidate) (requirement : string)
  : M (Z * string) unit :=
  keyword_rules candidate requirement ;;;
  penalty_rule candidate.

Definition baseline : Z * string := (50, "Basic match.").

Section RepoScout.

(** [os.getenv] *)
Variable getenv : string -> option string.
(** GET [https://api.github.com/search/repositories] with [q] *)
Variable github_search : string -> http_response.
(** POST [<base_url>/chat/completions] *)
Variable chat_completions : chat_request -> http_response.
(** [json.loads] *)
Variable json_loads : string -> result json.
(** [str(v)] of a value that is not a string, as an f-string prints it *)
Variable py_str : json -> string.
(** pydantic's validation of a [str] and of an [int] field *)
Variable coerce_str : json -> option string.
Variable coerce_int : json -> option Z.
(** [self.template_manager.fetch_analysis_files] *)
Variable fetch_files : string -> result (gmap string string).

(** [_analyze_match], lines 253-280: the deep read. *)
Definition deep_read (candidate : RepoCandidate) : M (Z * string) unit :=
  let* st := get in
  if Z.leb 60 st.1 then
    try_except
      (let* files := lift (fetch_files (url candidate)) in
       let* deep_insights :=
         match files !! "pom.xml" with
         | Some pom_content =>
             let* found :=
               (if str_in "jeecg-boot-starter" pom_content then
                  add_score 20 ;;;
                  add_reason " [Confirmed: Native Jeecg Dependency]" ;;;
                  ret ["Maven"; "Jeecg-Native"]
                else ret ["Maven"]) in
             ret (if str_in "mybatis-plus" pom_content
                  then found ++ ["MyBatis+"] else found)
         | None => ret []
         end in
       let deep_insights :=
         match files !! "package.json" with
         | Some _ => deep_insights ++ ["Node"]
         | None => deep_insights
         end in
       match deep_insights with
       | [] => ret tt
       | _ => add_reason (" (Deep Analysis: " +:+ join ", " deep_insights +:+ ")")
       end)
      any_exception
      (fun _ => ret tt)
  else ret tt.

Definition _analyze_match (candidate : RepoCandidate) (requirement : string)
  : result (Z * string) :=
  fst (run (heuristic_rules candidate requirement ;;;
            deep_read candidate ;;;
            get)
           baseline).

(** [RepoCandidate(name=n, url=u, description=d, stars=s)] *)
Definition RepoCandidate_init (n u d s : json) : result RepoCandidate :=
  match coerce_str n, coerce_str u, coerce_str d, coerce_int s with
  | Some n', Some u', Some d', Some s' =>
      Ok {| name := n'; url := u'; description := d'; stars := s';
            match_score := 0; analysis_reason := "" |}
  | _, _, _, _ => Raise ValidationError
  end.

Definition candidate_of_item (item : json) : result RepoCandidate :=
  let+ n := dict_get item "name" in
  let+ u := dict_get item "clone_url" in
  let+ d := dict_get item "description" in
  let+ s := dict_get_default item "stargazers_count" (JInt 0) in
  RepoCandidate_init n u
    (if truthy d then d else JStr "No description provided") s.

Definition _search_github_real (query : string) : result (list RepoCandidate) :=
  rcatch
    (let search_query := query +:+ " language:java" in
     match github_search search_query with
     | HttpRaises e => Raise e
     | HttpResponse status_code body =>
         if negb (Z.eqb status_code 200) then Ok []
         else
           let+ data := body in
           let+ items := dict_get_default data "items" (JArr []) in
           let+ items := iter items in
           mapM candidate_of_item items
     end)
    any_exception
    (fun _ => Ok []).

(** [search_and_analyze], lines 34-39: the search phase with its
    fallback (the design document's [discover]). *)
Definition search_phase (requirement : string) : result (list RepoCandidate) :=
  let+ candidates := _search_github_real requirement in
  match candidates with
  | [] => Ok (_mock_search_github requirement)
  | _ => Ok candidates
  end.

Definition describe (i : nat) (c : RepoCandidate) : string :=
  "Index " +:+ pretty i +:+ ":" +:+ nl +:+
  "- Name: " +:+ name c +:+ nl +:+
  "- Desc: " +:+ description c +:+ nl +:+
  "- Stars: " +:+ pretty (stars c) +:+ nl +:+
  "- Current Score: " +:+ pretty (match_score c) +:+ nl +:+
  "- Analysis: " +:+ analysis_reason c.

(** Every reference of the list is allocated; the default is never used. *)
Definition candidate_descriptions (st : scout_state) : list string :=
  imap (fun i r => from_option (describe i) "" (objs st !! r)) (candidates st).

Definition format_value (v : json) : string :=
  match v with
  | JStr s => s
  | _ => py_str v
  end.

Definition parse_errors (e : exn) : bool :=
  match e with
  | KeyError | JSONDecodeError | IndexError => true
  | _ => false
  end.

(** Lines 78-124: endpoint, model and prompt of the one request. *)
Definition build_chat_request (api_key : option string) (requirement : string)
           (st : scout_state) : chat_request :=
  let base_url :=
    rstrip_slash (default "https://cs.imds.ai/api/v1" (getenv "GEMINI_BASE_URL")) in
  let model := default "gemini-3-pro-preview" (getenv "GEMINI_MODEL") in
  let system_prompt :=
    "You are a Chief Software Architect. Help me select the best open-source repository to start a new project." in
  let user_prompt :=
    "User Requirement: " +:+ dquote +:+ requirement +:+ dquote +:+ nl +:+ nl +:+
    "Candidates:" +:+ nl +:+ join nl (candidate_descriptions st) +:+ nl +:+ nl +:+
    "Task: Select the ONE best candidate that most closely matches the requirement and is technically sound." +:+ nl +:+
    "Output JSON ONLY: { " +:+ dquote +:+ "selected_index" +:+ dquote +:+
    ": <int>, " +:+ dquote +:+ "reasoning" +:+ dquote +:+ ": " +:+
    dquote +:+ "<string>" +:+ dquote +:+ " }" in
  {| target_url := base_url +:+ "/chat/completions";
     authorization := "Bearer " +:+ default "" api_key;
     model := model;
     system_prompt := system_prompt;
     user_prompt := user_prompt |}.

(** Line 131: [data["choices"][0]["message"]["content"]] *)
Definition message_content (data : json) : result json :=
  let+ choices := getitem_key data "choices" in
  let+ choice := getitem_0 choices in
  let+ message := getitem_key choice "message" in
  getitem_key message "content".

(** Line 133: clean markdown code blocks if present. *)
Definition strip_fences (text_resp : string) : string :=
  strip (replace "```" "" (replace "```json" "" text_resp)).

(** Lines 139-151: the bonus, the rationale prefix and the move to the
    front, or nothing for an invalid index. *)
Definition promote_selected (idx ai_reason : json) : M scout_state unit :=
  let* st := get in
  let* valid :=
    lift (match idx with
          | JNull => Ok false
          | _ => in_range idx (length (candidates st))
          end) in
  if valid then
    let* i := lift (index idx) in
    let* selected := lift (list_getitem (candidates st) i) in
    (* Modify the selected candidate info *)
    modify (on_objs (alter (fun c =>
      set_match_score (match_score c + 10) c) selected)) ;;;
    modify (on_objs (alter (fun c =>
      set_analysis_reason
        ("[AI SELECTED: " +:+ format_value ai_reason +:+ "] " +:+
         analysis_reason c) c) selected)) ;;;
    (* Move to top *)
    let* st := get in
    let* popped := lift (list_pop (candidates st) i) in
    put (on_candidates (fun _ => popped) st) ;;;
    modify (on_candidates (cons selected))
  else ret tt.

(** Lines 129-154: parse the response body and act on the decision. *)
Definition parse_and_promote (data : json) : M scout_state unit :=
  try_except
    (let* content := lift (message_content data) in
     let* text_resp := lift (as_str content) in
     let* decision := lift (json_loads (strip_fences text_resp)) in
     let* idx := lift (dict_get decision "selected_index") in
     let* ai_reason :=
       lift (dict_get_default decision "reasoning" (JStr "No reason provided.")) in
     promote_selected idx ai_reason)
    parse_errors
    (fun _ => ret tt).

Definition _evaluate_candidates_with_ai (requirement : string)
  : M scout_state (list nat) :=
  let api_key := getenv "GEMINI_API_KEY" in
  if negb (truthy_str api_key) then
    let* st := get in ret (candidates st)
  else
    let* st0 := get in
    try_except
      (match chat_completions (build_chat_request api_key requirement st0) with
       | HttpRaises e => raise e
       | HttpResponse status_code body =>
           if Z.eqb status_code 200 then
             let* data := lift body in
             parse_and_promote data
           else ret tt
       end)
      any_exception
      (fun _ => ret tt) ;;;
    let* st := get in ret (candidates st).

(** The analysis loop body: score the candidate and store the result
    in it. *)
Definition analyze (requirement : string) (cand : RepoCandidate)
  : result RepoCandidate :=
  let+ sr := _analyze_match cand requirement in
  Ok (set_analysis_reason sr.2 (set_match_score sr.1 cand)).

(** The candidates of one run are fresh, pairwise distinct objects;
    they are placed in the store once scored and sorted. *)
Definition search_and_analyze (requirement : string)
  : result (list RepoCandidate) :=
  (* 1. Search Phase *)
  let+ candidates := search_phase requirement in
  (* 2. Analysis Phase *)
  let+ results := mapM (analyze requirement) candidates in
  (* 3. Sort by heuristic score first *)
  let results := sort_desc results in
  (* 4. AI Architect Evaluation *)
  match results with
  | [] => Ok results
  | _ =>
      let st := {| objs := map_seq 0 results;
                   candidates := seq 0 (length results) |} in
      match run (_evaluate_candidates_with_ai requirement) st with
      | (Ok refs, st') => Ok (omap (fun r => objs st' !! r) refs)
      | (Raise e, _) => Raise e
      end
  end.

End RepoScout.

Global Arguments promote_selected : simpl never.
Global Arguments parse_and_promote : simpl never.
Global Arguments build_chat_request : simpl never.
Global Arguments message_content : simpl never.
Global Arguments strip_fences : simpl never.

(** ** Vocabulary of the statements *)

(** What adjudication does to the selected object. *)
Definition add_bonus (c : RepoCandidate) : RepoCandidate :=
  set_match_score (match_score c + 10) c.
Definition prefix_reason (ai_reason : string) (c : RepoCandidate) : RepoCandidate :=
  set_analysis_reason
    ("[AI SELECTED: " +:+ ai_reason +:+ "] " +:+ analysis_reason c) c.

(** The state after the object [sel], found at position [i], has been
    promoted with the reasoning text [ai_reason]. *)
Definition promoted (i sel : nat) (ai_reason : string) (st : scout_state)
  : scout_state :=
  {| objs := alter (prefix_reason ai_reason) sel (alter add_bonus sel (objs st));
     candidates := sel :: delete i (candidates st) |}.

(** Two candidate records that differ at most in score and rationale. *)
Definition same_identity (c c' : RepoCandidate) : Prop :=
  name c' = name c ∧ url c' = url c ∧
  description c' = description c ∧ stars c' = stars c.

(** The locals after the keyword rules, and after the penalty rule,
    starting from the baseline. *)
Definition keyword_result (candidate : RepoCandidate) (requirement : string)
  : Z * string :=
  snd (run (keyword_rules candidate requirement) baseline).
Definition heuristic_result (candidate : RepoCandidate) (requirement : string)
  : Z * string :=
  snd (run (heuristic_rules candidate requirement) baseline).

(** A fetched file set that carries no deep signal. *)
Definition no_signal (fetched : result (gmap string string)) : Prop :=
  match fetched with
  | Raise _ => True
  | Ok files => files !! "pom.xml" = None ∧ files !! "package.json" = None
  end.

(** The primary search query failed or found nothing: the client raised,
    the status is not 200, or the body has no items. *)
Inductive search_failed (github_search : string → http_response)
          (requirement : string) : Prop :=
| sf_transport e :
    github_search (requirement +:+ " language:java") = HttpRaises e →
    search_failed github_search requirement
| sf_status status body :
    github_search (requirement +:+ " language:java") = HttpResponse status body →
    status ≠ 200 →
    search_failed github_search requirement
| sf_no_items data :
    github_search (requirement +:+ " language:java") = HttpResponse 200 (Ok data) →
    dict_get_default data "items" (JArr []) = Ok (JArr []) →
    search_failed github_search requirement.

(** The candidates all come from the items of a successful search. *)
Definition all_from_search (github_search : string → http_response)
           (coerce_str : json → option string) (coerce_int : json → option Z)
           (requirement : string) (l : list RepoCandidate) : Prop :=
  ∃ data items_value items,
    github_search (requirement +:+ " language:java") = HttpResponse 200 (Ok data) ∧
    dict_get_default data "items" (JArr []) = Ok items_value ∧
    iter items_value = Ok items ∧
    mapM (candidate_of_item coerce_str coerce_int) items = Ok l.

(** The git commands that [fetch_analysis_files] issues, in order. *)
Definition analysis_commands (repo_url branch : string) : list (list string) :=
  [ ["init"];
    ["remote"; "add"; "origin"; repo_url];
    ["config"; "core.sparseCheckout"; "true"];
    ["pull"; "--depth"; "1"; "origin"; branch] ].

(** Git never exits with status zero on these arguments (the remote does
    not exist or is private, the network is down, ...). *)
Definition git_refuses
           (git : list (list string * path) → list string → path →
                  gmap path node → git_exit * gmap path node)
           (args : list string) : Prop :=
  ∀ log cwd fs out, (git log args cwd fs).1 ≠ GitOk out.

(** [self.template_manager.fetch_analysis_files(candidate.url)] when the
    scout is given the template manager of this repository: the branch
    takes its default ["HEAD"]. *)
Definition template_manager_fetch
           (git : list (list string * path) → list string → path →
                  gmap path node → git_exit * gmap path node)
           (temp_path : path) (w : world) (repo_url : string)
  : result (gmap string string) :=
  fst (run (fetch_analysis_files git temp_path repo_url "HEAD") w).

(** A statement that, whatever its outcome, appends to the git log only
    commands that satisfy [P]. *)
Definition issues_only (P : list string * path → Prop) {A} (c : M world A) : Prop :=
  ∀ w r w', run c w = (r, w') →
            ∃ l, git_log w' = git_log w ++ l ∧ Forall P l.

(** A git command that is neither a fetch nor a reset. *)
Definition not_update_command (c : list string * path) : Prop :=
  head c.1 ≠ Some "fetch" ∧ head c.1 ≠ Some "reset".

(** A selected index that the code does not act on: absent (or null),
    or an integer outside the list. *)
Definition invalid_index (idx : json) (n : nat) : Prop :=
  idx = JNull ∨ ∃ z, idx = JInt z ∧ ¬ (0 ≤ z < Z.of_nat n).

(** The conditions under which no adjudication takes place. *)
Inductive no_adjudication
          (getenv : string → option string)
          (chat_completions : chat_request → http_response)
          (json_loads : string → result json)
          (requirement : string) (st : scout_state) : Prop :=
| na_empty_list :
    candidates st = [] →
    no_adjudication getenv chat_completions json_loads requirement st
| na_no_credential :
    truthy_str (getenv "GEMINI_API_KEY") = false →
    no_adjudication getenv chat_completions json_loads requirement st
| na_unreachable e :
    chat_completions
      (build_chat_request getenv (getenv "GEMINI_API_KEY") requirement st)
      = HttpRaises e →
    no_adjudication getenv chat_completions json_loads requirement st
| na_status status body :
    chat_completions
      (build_chat_request getenv (getenv "GEMINI_API_KEY") requirement st)
      = HttpResponse status body →
    status ≠ 200 →
    no_adjudication getenv chat_completions json_loads requirement st
| na_invalid_index data text decision idx :
    chat_completions
      (build_chat_request getenv (getenv "GEMINI_API_KEY") requirement st)
      = HttpResponse 200 (Ok data) →
    message_content data = Ok (JStr text) →
    json_loads (strip_fences text) = Ok decision →
    dict_get decision "selected_index" = Ok idx →
    invalid_index idx (length (candidates st)) →
    no_adjudication getenv chat_completions json_loads requirement st.

(** ** Concrete environments and inputs for the examples *)

Definition env_with_key (k : string) : option string :=
  if bool_decide (k = "GEMINI_API_KEY") then Some "secret" else None.

Definition env_unset (k : string) : option string := None.

Definition completion (content : string) : json :=
  JObj [("choices", JArr [JObj [("message", JObj [("content", JStr content)])]])].

(** A reasoning service that always answers with a fenced decision. *)
Definition chat_fenced (r : chat_request) : http_response :=
  HttpResponse 200 (Ok (completion "```json DECISION ```")).

Definition chat_unavailable (r : chat_request) : http_response :=
  HttpResponse 503 (Raise JSONDecodeError).

(** A parser that knows one document. *)
Definition loads_decision (idx : json) (reasoning : string) (text : string)
  : result json :=
  if bool_decide (text = "DECISION")
  then Ok (JObj [("selected_index", idx); ("reasoning", JStr reasoning)])
  else Raise JSONDecodeError.

Definition py_str_none (v : json) : string := "None".

Definition cand (n : string) (score : Z) (reason : string) : RepoCandidate :=
  {| name := n; url := "https://example.org/" +:+ n +:+ ".git";
     description := "candidate " +:+ n; stars := 0;
     match_score := score; analysis_reason := reason |}.

Definition ranked_ABC : scout_state :=
  {| objs := map_seq 0 [cand "A" 80 "ra"; cand "B" 60 "rb"; cand "C" 40 "rc"];
     candidates := [0; 1; 2]%nat |}.

Definition jeecg_demo : RepoCandidate :=
  {| name := "jeecg-boot-module-demo";
     url := "https://github.com/jeecgboot/jeecg-boot.git";
     description := "Official JeecgBoot demo module. Contains standard CRUD patterns.";
     stars := 3500; match_score := 0; analysis_reason := "" |}.

Definition jeepay : RepoCandidate :=
  {| name := "jeepay-payment-system";
     url := "https://github.com/jeequan/jeepay.git";
     description := "Open source payment system. High complexity, standalone app.";
     stars := 1200; match_score := 0; analysis_reason := "" |}.

Definition billing_app : RepoCandidate :=
  {| name := "billing";
     url := "https://example.org/billing.git";
     description := "A standalone billing application";
     stars := 7; match_score := 0; analysis_reason := "" |}.

Definition fetch_nothing (repo_url : string) : result (gmap string string) :=
  Ok ∅.
Definition fetch_jeecg_pom (repo_url : string) : result (gmap string string) :=
  Ok {[ "pom.xml" := "<artifactId>jeecg-boot-starter-web</artifactId>" ]}.
Definition fetch_readme (repo_url : string) : result (gmap string string) :=
  Ok {[ "README.md" := "# billing" ]}.

Definition github_down (q : string) : http_response :=
  HttpResponse 403 (Raise JSONDecodeError).
Definition github_timeout (q : string) : http_response :=
  HttpRaises HTTPError.
Definition github_no_match (q : string) : http_response :=
  HttpResponse 200 (Ok (JObj [("total_count", JInt 0); ("items", JArr [])])).

(** A strict reading of pydantic's field validation. *)
Definition strict_str (v : json) : option string :=
  match v with JStr s => Some s | _ => None end.
Definition strict_int (v : json) : option Z :=
  match v with JInt z => Some z | _ => None end.

Definition demo_url : string := "https://github.com/jeecgboot/jeecg-boot.git".

Definition demo_meta : template_meta :=
  {| type_ := Some "git"; repository := Some demo_url;
     branch := None; sub_path := None |}.

Definition demo_sub_meta : template_meta :=
  {| type_ := Some "git"; repository := Some demo_url;
     branch := None; sub_path := Some "jeecg-module-demo" |}.

Definition demo_registry : gmap string template_meta :=
  <["jeecg-demo" := demo_meta]> (<["jeecg-demo-local" := demo_sub_meta]> ∅).

Definition demo_cache : path := [".template_cache"].

(** Only the cache directory exists; git has not been run yet. *)
Definition fresh_world : world :=
  {| files := {[ demo_cache := Dir ]}; git_log := [] |}.

Definition is_command (cmd : string) (args : list string) : bool :=
  bool_decide (head args = Some cmd).

(** A git whose [init] creates [.git/info] and whose [pull] checks out
    the given tree below the working directory; every command succeeds. *)
Definition git_sim (tree : list (path * node))
           (log : list (list string * path)) (args : list string) (cwd : path)
           (fs : gmap path node) : git_exit * gmap path node :=
  if is_command "init" args then
    (GitOk "Initialized empty Git repository",
     <[cwd ++ [".git"; "info"] := Dir]> (<[cwd ++ [".git"] := Dir]> fs))
  else if is_command "pull" args then
    (GitOk "", foldr (fun kv m => <[cwd ++ kv.1 := kv.2]> m) fs tree)
  else (GitOk "", fs).

(** The same, except that the command [cmd] exits with a non-zero status
    and leaves the file system as it was. *)
Definition git_failing (cmd : string) (tree : list (path * node))
           (log : list (list string * path)) (args : list string) (cwd : path)
           (fs : gmap path node) : git_exit * gmap path node :=
  if is_command cmd args then (GitFailed "fatal: unable to proceed", fs)
  else git_sim tree log args cwd fs.

Definition demo_tree : list (path * node) :=
  [ (["jeecg-module-demo"], Dir);
    (["jeecg-module-demo"; "pom.xml"], File "<project/>") ].

(** ** Vocabulary of the further properties *)

(** The git commands of a complete fresh download, in order, all run in
    the target directory. *)
Definition download_commands (target_dir : path) (meta : template_meta)
           (repo_url : string) : list (list string * path) :=
  [ (["init"], target_dir);
    (["remote"; "add"; "origin"; repo_url], target_dir) ] ++
  (if truthy_str (sub_path meta)
   then [ (["config"; "core.sparseCheckout"; "true"], target_dir) ]
   else []) ++
  [ (["pull"; "--depth"; "1"; "origin"; default "master" (branch meta)],
     target_dir) ].

(** The git commands of a complete ad-hoc fetch, all run in the
    temporary directory. *)
Definition analysis_log (temp_path : path) (repo_url branch : string)
  : list (list string * path) :=
  map (fun args => (args, temp_path)) (analysis_commands repo_url branch).

(** A candidate with the score and rationale that the analysis loop
    stores in it. *)
Definition scored (fetch_files : string → result (gmap string string))
           (requirement : string) (c : RepoCandidate) : RepoCandidate :=
  let sr := snd (run (deep_read fetch_files c) (heuristic_result c requirement)) in
  set_analysis_reason sr.2 (set_match_score sr.1 c).

(** The scored candidates in ranking order. *)
Definition ranked (fetch_files : string → result (gmap string string))
           (requirement : string) (cands : list RepoCandidate)
  : list RepoCandidate :=
  sort_desc (map (scored fetch_files requirement) cands).

(** [a] may stand before [b] in a ranking. *)
Definition outranks (a b : RepoCandidate) : Prop :=
  match_score b ≤ match_score a.

(** The deep read found a [pom.xml] that names the Jeecg starter. *)
Definition starter_confirmed (fetched : result (gmap string string)) : bool :=
  match fetched with
  | Ok files =>
      match files !! "pom.xml" with
      | Some pom_content => str_in "jeecg-boot-starter" pom_content
      | None => false
      end
  | Raise _ => false
  end.

Definition item (n clone_url : string) (stars : Z) : json :=
  JObj [("name", JStr n); ("clone_url", JStr clone_url);
        ("description", JNull); ("stargazers_count", JInt stars)].

(** A search response with two well-formed items, and one whose second
    item has no name. *)
Definition github_two (q : string) : http_response :=
  HttpResponse 200
    (Ok (JObj [("items", JArr [item "pay-a" "https://example.org/a.git" 9;
                               item "pay-b" "https://example.org/b.git" 4])])).
Definition github_one_bad (q : string) : http_response :=
  HttpResponse 200
    (Ok (JObj [("items", JArr [item "pay-a" "https://example.org/a.git" 9;
                               JObj [("clone_url", JStr "https://example.org/b.git")]])])).

(** A selected index of a type that cannot index a list. *)
Definition not_an_index (idx : json) : Prop :=
  match idx with
  | JStr _ | JFloat _ | JArr _ | JObj _ => True
  | _ => False
  end.

(** A 200 response that does not carry a usable decision: the body is
    not JSON, the completion has no message content, the content is not
    text or does not parse, the parsed value is not an object, or its
    [selected_index] is of a type that cannot index a list. *)
Inductive unusable_answer
          (getenv : string → option string)
          (chat_completions : chat_request → http_response)
          (json_loads : string → result json)
          (requirement : string) (st : scout_state) : Prop :=
| ua_body e :
    chat_completions
      (build_chat_request getenv (getenv "GEMINI_API_KEY") requirement st)
      = HttpResponse 200 (Raise e) →
    unusable_answer getenv chat_completions json_loads requirement st
| ua_shape data e :
    chat_completions
      (build_chat_request getenv (getenv "GEMINI_API_KEY") requirement st)
      = HttpResponse 200 (Ok data) →
    message_content data = Raise e →
    unusable_answer getenv chat_completions json_loads requirement st
| ua_content data content e :
    chat_completions
      (build_chat_request getenv (getenv "GEMINI_API_KEY") requirement st)
      = HttpResponse 200 (Ok data) →
    message_content data = Ok content →
    as_str content = Raise e →
    unusable_answer getenv chat_completions json_loads requirement st
| ua_parse data text e :
    chat_completions
      (build_chat_request getenv (getenv "GEMINI_API_KEY") requirement st)
      = HttpResponse 200 (Ok data) →
    message_content data = Ok (JStr text) →
    json_loads (strip_fences text) = Raise e →
    unusable_answer getenv chat_completions json_loads requirement st
| ua_decision data text decision e :
    chat_completions
      (build_chat_request getenv (getenv "GEMINI_API_KEY") requirement st)
      = HttpResponse 200 (Ok data) →
    message_content data = Ok (JStr text) →
    json_loads (strip_fences text) = Ok decision →
    dict_get decision "selected_index" = Raise e →
    unusable_answer getenv chat_completions json_loads requirement st
| ua_index data text decision idx :
    chat_completions
      (build_chat_request getenv (getenv "GEMINI_API_KEY") requirement st)
      = HttpResponse 200 (Ok data) →
    message_content data = Ok (JStr text) →
    json_loads (strip_fences text) = Ok decision →
    dict_get decision "selected_index" = Ok idx →
    not_an_index idx →
    unusable_answer getenv chat_completions json_loads requirement st.

(** A reasoning service whose answer is prose, not JSON. *)
Definition chat_prose (r : chat_request) : http_response :=
  HttpResponse 200 (Ok (completion "I would pick the second one.")).

(** A registry document in which the key ["demo"] occurs twice. *)
Definition entry (k repo : string) : json :=
  JObj [("key", JStr k); ("type", JStr "git"); ("repository", JStr repo)].

Definition registry_document : json :=
  JObj [("templates",
         JArr [entry "demo" "https://example.org/old.git";
               entry "other" "https://example.org/other.git";
               entry "demo" "https://example.org/new.git"])].

Definition loads_registry (text : string) : result json :=
  if bool_decide (text = "REGISTRY") then Ok registry_document
  else Raise JSONDecodeError.

Definition exn_name (e : exn) : string := "error".

Definition registry_file : path := ["backend"; "template-registry.json"].

Definition configured_world : world :=
  {| files := {[ registry_file := File "REGISTRY" ]}; git_log := [] |}.

Definition stripe_sdk : RepoCandidate :=
  {| name := "stripe-java-sdk";
     url := "https://github.com/stripe/stripe-java.git";
     description := "Official Stripe SDK. Low level library, not a module.";
     stars := 5000; match_score := 0; analysis_reason := "" |}.

Definition zip_meta : template_meta :=
  {| type_ := Some "zip"; repository := Some demo_url;
     branch := None; sub_path := None |}.

Definition mixed_registry : gmap string template_meta :=
  <["archive" := zip_meta]> demo_registry.

(** A cache that already holds the working copy of ["jeecg-demo"]. *)
Definition cached_world : world :=
  {| files := <[ [".template_cache"; "jeecg-demo"] := Dir ]> (files fresh_world);
     git_log := [] |}.

(** * Laws of the statement monad *)

Lemma bind_lift_Ok {S A B} (a : A) (k : A → M S B) :
  bind (lift (Ok a)) k = k a.
Proof. reflexivity. Qed.

Lemma bind_lift_Raise {S A B} (e : exn) (k : A → M S B) :
  bind (lift (Raise e)) k = raise e.
Proof. reflexivity. Qed.

(** A raise that leaves the state alone is turned by a handler that
    does nothing into a return that leaves the state alone. *)
Lemma try_except_pass {S} (c : M S unit) (handles : exn → bool) (s : S) :
  (∃ r, run c s = (r, s)) →
  ∃ r, run (try_except c handles (fun _ => ret tt)) s = (r, s).
Proof.
  intros [r Hr]. unfold run, try_except in *. rewrite Hr.
  destruct r as [a|e]; [by eexists|].
  destruct (handles e); by eexists.
Qed.

(** A handler for every exception that returns a value makes the
    statement return. *)
Lemma try_except_any_returns {S A} (c : M S A) (d : A) (s : S) :
  ∃ a s', run (try_except c any_exception (fun _ => ret d)) s = (Ok a, s').
Proof.
  unfold run, try_except. destruct (c s) as [[a|e] s']; by eexists _, _.
Qed.

(** * Properties of the adjudicator *)

Lemma norm_index_in_range (z : Z) (n : nat) :
  0 ≤ z < Z.of_nat n → norm_index z n = Some (Z.to_nat z).
Proof.
  intros [H0 Hn]. unfold norm_index.
  destruct (Z.ltb_spec z 0) as [Hneg|_]; [lia|].
  destruct (Z.leb_spec 0 z) as [_|Hneg]; [|lia].
  destruct (Z.ltb_spec z (Z.of_nat n)) as [_|Hge]; [done|lia].
Qed.

Lemma list_getitem_in_range {A} (l : list A) (z : Z) :
  0 ≤ z < Z.of_nat (length l) →
  ∃ x, l !! Z.to_nat z = Some x ∧ list_getitem l z = Ok x.
Proof.
  intros Hz. unfold list_getitem. rewrite norm_index_in_range by done.
  destruct (lookup_lt_is_Some_2 l (Z.to_nat z)) as [x Hx]; [lia|].
  exists x. by rewrite Hx.
Qed.

Lemma list_pop_in_range {A} (l : list A) (z : Z) :
  0 ≤ z < Z.of_nat (length l) → list_pop l z = Ok (delete (Z.to_nat z) l).
Proof. intros Hz. unfold list_pop. by rewrite norm_index_in_range. Qed.

Section Adjudicator.

Variable getenv : string -> option string.
Variable chat_completions : chat_request -> http_response.
Variable json_loads : string -> result json.
Variable py_str : json -> string.

Local Abbreviation promote := (promote_selected py_str).
Local Abbreviation parse := (parse_and_promote json_loads py_str).
Local Abbreviation evaluate :=
  (_evaluate_candidates_with_ai getenv chat_completions json_loads py_str).

(** The success path, for an index that a list accepts and that is in
    range. *)
Lemma promote_selected_index (idx ai_reason : json) (z : Z) (st : scout_state) :
  idx ≠ JNull → in_range idx (length (candidates st)) = Ok true →
  index idx = Ok z → 0 ≤ z < Z.of_nat (length (candidates st)) →
  ∃ sel, candidates st !! Z.to_nat z = Some sel ∧
         run (promote idx ai_reason) st =
         (Ok tt, promoted (Z.to_nat z) sel (format_value py_str ai_reason) st).
Proof.
  intros Hnull Hrange Hindex Hz.
  destruct (list_getitem_in_range (candidates st) z Hz) as (sel & Hsel & Hget).
  exists sel. split; [done|].
  unfold promote_selected, run, bind, get, lift.
  replace (match idx with JNull => Ok false | _ => in_range idx (length (candidates st)) end)
    with (Ok (A:=bool) true) by (destruct idx; congruence).
  rewrite Hindex, Hget. cbn.
  by rewrite (list_pop_in_range _ _ Hz).
Qed.

(** Whatever the index is, the step either leaves the state alone
    (returning or raising) or promotes one element of the list. *)
Lemma promote_cases (idx ai_reason : json) (st : scout_state) :
  (∃ r, run (promote idx ai_reason) st = (r, st)) ∨
  (∃ i sel, candidates st !! i = Some sel ∧
            run (promote idx ai_reason) st =
            (Ok tt, promoted i sel (format_value py_str ai_reason) st)).
Proof.
  destruct idx as [|b|z|q|s|l|kvs];
    try (left; eexists; reflexivity).
  - destruct (in_range (JBool b) (length (candidates st))) as [[|]|e] eqn:Hr;
      try discriminate.
    + right. exists (Z.to_nat (if b then 1 else 0)).
      cbn in Hr. injection Hr as Hr. apply Z.ltb_lt in Hr.
      destruct (promote_selected_index (JBool b) ai_reason (if b then 1 else 0) st)
        as (sel & Hsel & Hrun); try done.
      * cbn. f_equal. by apply Z.ltb_lt.
      * destruct b; lia.
      * by exists sel.
    + left. eexists. unfold promote_selected, run, bind, get, lift.
      rewrite Hr. reflexivity.
  - destruct (in_range (JInt z) (length (candidates st))) as [[|]|e] eqn:Hr;
      try discriminate.
    + right. exists (Z.to_nat z).
      assert (0 ≤ z < Z.of_nat (length (candidates st))) as Hz.
      { cbn in Hr. injection Hr as Hr. apply andb_true_iff in Hr as [H0 H1].
        apply Z.leb_le in H0. apply Z.ltb_lt in H1. lia. }
      destruct (promote_selected_index (JInt z) ai_reason z st)
        as (sel & Hsel & Hrun); try done.
      by exists sel.
    + left. eexists. unfold promote_selected, run, bind, get, lift.
      rewrite Hr. reflexivity.
  - left. unfold promote_selected, run, bind, get, lift.
    destruct (in_range (JFloat q) (length (candidates st))) as [[|]|e];
      eexists; reflexivity.
Qed.

Lemma parse_cases (data : json) (st : scout_state) :
  (∃ r, run (parse data) st = (r, st)) ∨
  (∃ i sel ai_reason, candidates st !! i = Some sel ∧
                      run (parse data) st = (Ok tt, promoted i sel ai_reason st)).
Proof.
  unfold parse_and_promote.
  destruct (message_content data) as [content|e] eqn:Hc;
    [rewrite bind_lift_Ok|left; apply try_except_pass; by eexists].
  destruct (as_str content) as [text|e] eqn:Ht;
    [rewrite bind_lift_Ok|left; apply try_except_pass; by eexists].
  destruct (json_loads (strip_fences text)) as [decision|e] eqn:Hd;
    [rewrite bind_lift_Ok|left; apply try_except_pass; by eexists].
  destruct (dict_get decision "selected_index") as [idx|e] eqn:Hi;
    [rewrite bind_lift_Ok|left; apply try_except_pass; by eexists].
  destruct (dict_get_default decision "reasoning" (JStr "No reason provided."))
    as [ai_reason|e] eqn:Ha;
    [rewrite bind_lift_Ok|left; apply try_except_pass; by eexists].
  destruct (promote_cases idx ai_reason st) as [Hsame|(i & sel & Hsel & Hrun)].
  - left. by apply try_except_pass.
  - right. exists i, sel, (format_value py_str ai_reason). split; [done|].
    unfold run, try_except in *. by rewrite Hrun.
Qed.

(** The whole step always returns, its value is the list as it stands
    in the final state, and that state is the initial one or the
    initial one with one element promoted. *)
Lemma evaluate_cases (requirement : string) (st : scout_state) :
  run (evaluate requirement) st = (Ok (candidates st), st) ∨
  (∃ i sel ai_reason,
      candidates st !! i = Some sel ∧
      run (evaluate requirement) st =
      (Ok (candidates (promoted i sel ai_reason st)), promoted i sel ai_reason st)).
Proof.
  unfold _evaluate_candidates_with_ai.
  destruct (truthy_str (getenv "GEMINI_API_KEY")); cbn [negb]; [|by left].
  unfold run, bind, get, try_except.
  destruct (chat_completions _) as [e|status body]; [by left|].
  destruct (Z.eqb status 200); [|by left].
  destruct body as [data|e]; [|by left].
  unfold lift.
  destruct (parse_cases data st) as [[r Hr]|(i & sel & ai_reason & Hsel & Hr)];
    unfold run in Hr; rewrite Hr.
  - left. by destruct r.
  - right. by exists i, sel, ai_reason.
Qed.

Lemma evaluate_success (requirement : string) (st : scout_state)
      (data : json) (text : string) (decision ai_reason : json) (z : Z) :
  truthy_str (getenv "GEMINI_API_KEY") = true →
  chat_completions
    (build_chat_request getenv (getenv "GEMINI_API_KEY") requirement st)
    = HttpResponse 200 (Ok data) →
  message_content data = Ok (JStr text) →
  json_loads (strip_fences text) = Ok decision →
  dict_get decision "selected_index" = Ok (JInt z) →
  dict_get_default decision "reasoning" (JStr "No reason provided.") = Ok ai_reason →
  0 ≤ z < Z.of_nat (length (candidates st)) →
  ∃ sel, candidates st !! Z.to_nat z = Some sel ∧
         run (evaluate requirement) st =
         (Ok (sel :: delete (Z.to_nat z) (candidates st)),
          promoted (Z.to_nat z) sel (format_value py_str ai_reason) st).
Proof.
  intros Hkey Hchat Hcontent Hloads Hidx Hreason Hz.
  destruct (promote_selected_index (JInt z) ai_reason z st)
    as (sel & Hsel & Hrun); try done.
  { cbn. f_equal. apply andb_true_iff. split; [apply Z.leb_le|apply Z.ltb_lt]; lia. }
  exists sel. split; [done|].
  unfold _evaluate_candidates_with_ai. rewrite Hkey. cbn [negb].
  unfold run, bind, get, try_except in *. rewrite Hchat. cbn.
  unfold parse_and_promote, try_except, bind, lift.
  rewrite Hcontent. cbn. rewrite Hloads, Hidx, Hreason.
  by rewrite Hrun.
Qed.

Lemma promote_invalid (idx ai_reason : json) (st : scout_state) :
  invalid_index idx (length (candidates st)) →
  run (promote idx ai_reason) st = (Ok tt, st).
Proof.
  intros [->|(z & -> & Hz)]; [done|].
  unfold promote_selected, run, bind, get, lift. cbn.
  destruct (Z.leb_spec 0 z), (Z.ltb_spec z (Z.of_nat (length (candidates st))));
    cbn; try done. lia.
Qed.

Lemma evaluate_noop (requirement : string) (st : scout_state) :
  no_adjudication getenv chat_completions json_loads requirement st →
  run (evaluate requirement) st = (Ok (candidates st), st).
Proof.
  intros Hna.
  destruct (evaluate_cases requirement st)
    as [Hsame|(i & sel & ai_reason & Hsel & Hrun)]; [done|].
  unfold _evaluate_candidates_with_ai, run, bind, get, try_except in *.
  destruct Hna as [Hempty|Hkey|e Hchat|status body Hchat Hstatus
                   |data text decision idx Hchat Hcontent Hloads Hidx Hinv].
  - rewrite Hempty in Hsel. by rewrite lookup_nil in Hsel.
  - by rewrite Hkey.
  - destruct (truthy_str _); [|done]. cbn [negb]. by rewrite Hchat.
  - destruct (truthy_str _); [|done]. cbn [negb]. rewrite Hchat.
    by destruct (Z.eqb_spec status 200).
  - destruct (truthy_str _); [|done]. cbn [negb]. rewrite Hchat. cbn.
    unfold parse_and_promote, try_except, bind, lift.
    rewrite Hcontent. cbn. rewrite Hloads, Hidx.
    assert (∃ v, dict_get_default decision "reasoning" (JStr "No reason provided.")
                 = Ok v) as [v ->].
    { destruct decision; try discriminate. by eexists. }
    pose proof (promote_invalid idx v st Hinv) as Hp.
    unfold run in Hp. by rewrite Hp.
Qed.

End Adjudicator.

(** C1.  A ranked list [A(80), B(60), C(40)] and a service response that
    selects index 2 with a reasoning string: adjudication returns
    [C, A, B]; the score of C is 40 + 10 = 50, its rationale is the old
    one prefixed with the bracketed selection tag and the reasoning, and
    A and B are untouched and keep their relative order. *)
Theorem adjudication_promotes_selected
        (getenv : string → option string)
        (chat_completions : chat_request → http_response)
        (json_loads : string → result json) (py_str : json → string)
        (requirement : string) (a b c : RepoCandidate)
        (data : json) (text : string) (decision : json) (reasoning : string) :
  let st := {| objs := map_seq 0 [a; b; c]; candidates := [0; 1; 2]%nat |} in
  match_score a = 80 → match_score b = 60 → match_score c = 40 →
  truthy_str (getenv "GEMINI_API_KEY") = true →
  chat_completions
    (build_chat_request getenv (getenv "GEMINI_API_KEY") requirement st)
    = HttpResponse 200 (Ok data) →
  message_content data = Ok (JStr text) →
  json_loads (strip_fences text) = Ok decision →
  dict_get decision "selected_index" = Ok (JInt 2) →
  dict_get_default decision "reasoning" (JStr "No reason provided.")
    = Ok (JStr reasoning) →
  ∃ st',
    run (_evaluate_candidates_with_ai getenv chat_completions json_loads py_str
           requirement) st = (Ok [2; 0; 1]%nat, st') ∧
    candidates st' = [2; 0; 1]%nat ∧
    objs st' !! 2%nat =
      Some {| name := name c; url := url c; description := description c;
              stars := stars c; match_score := 50;
              analysis_reason :=
                "[AI SELECTED: " +:+ reasoning +:+ "] " +:+ analysis_reason c |} ∧
    objs st' !! 0%nat = Some a ∧
    objs st' !! 1%nat = Some b.
Proof.
  intros st Ha Hb Hc Hkey Hchat Hcontent Hloads Hidx Hreason.
  destruct (evaluate_success getenv chat_completions json_loads py_str
              requirement st data text decision (JStr reasoning) 2)
    as (sel & Hsel & Hrun); try done.
  cbn in Hsel. injection Hsel as <-.
  eexists. split; [exact Hrun|]. split; [done|].
  unfold promoted, st, format_value. cbn [objs].
  split; [|split].
  - rewrite !lookup_alter_eq, lookup_map_seq_0. cbn.
    unfold prefix_reason, add_bonus, set_analysis_reason, set_match_score.
    cbn. by rewrite Hc.
  - by rewrite !lookup_alter_ne, lookup_map_seq_0.
  - by rewrite !lookup_alter_ne, lookup_map_seq_0.
Qed.

Lemma adjudication_promotes_selected_witness :
  ∃ st',
    run (_evaluate_candidates_with_ai env_with_key chat_fenced
           (loads_decision (JInt 2) "fits best") py_str_none "payment module")
        ranked_ABC = (Ok [2; 0; 1]%nat, st') ∧
    candidates st' = [2; 0; 1]%nat ∧
    objs st' !! 2%nat =
      Some {| name := "C"; url := "https://example.org/C.git";
              description := "candidate C"; stars := 0; match_score := 50;
              analysis_reason := "[AI SELECTED: fits best] rc" |} ∧
    objs st' !! 0%nat = Some (cand "A" 80 "ra") ∧
    objs st' !! 1%nat = Some (cand "B" 60 "rb").
Proof.
  apply (adjudication_promotes_selected env_with_key chat_fenced
           (loads_decision (JInt 2) "fits best") py_str_none "payment module"
           (cand "A" 80 "ra") (cand "B" 60 "rb") (cand "C" 40 "rc")
           (completion "```json DECISION ```") "```json DECISION ```"
           (JObj [("selected_index", JInt 2); ("reasoning", JStr "fits best")])
           "fits best");
    reflexivity.
Defined.

(** C2.  Adjudication leaves the candidate list and every candidate as
    they were (same order, same content) when the list is empty, when
    the credential is absent, when the service cannot be reached or
    answers with a status other than 200, and when the parsed decision
    has no [selected_index] or one outside the list. *)
Theorem adjudication_noop
        (getenv : string → option string)
        (chat_completions : chat_request → http_response)
        (json_loads : string → result json) (py_str : json → string)
        (requirement : string) (st : scout_state) :
  no_adjudication getenv chat_completions json_loads requirement st →
  run (_evaluate_candidates_with_ai getenv chat_completions json_loads py_str
         requirement) st = (Ok (candidates st), st).
Proof. apply evaluate_noop. Qed.

Lemma adjudication_noop_witness :
  let empty := {| objs := ∅; candidates := [] |} in
  run (_evaluate_candidates_with_ai env_with_key chat_fenced
         (loads_decision (JInt 0) "first") py_str_none "payment module") empty
    = (Ok [], empty) ∧
  run (_evaluate_candidates_with_ai env_unset chat_fenced
         (loads_decision (JInt 2) "third") py_str_none "payment module") ranked_ABC
    = (Ok [0; 1; 2]%nat, ranked_ABC) ∧
  run (_evaluate_candidates_with_ai env_with_key chat_unavailable
         (loads_decision (JInt 2) "third") py_str_none "payment module") ranked_ABC
    = (Ok [0; 1; 2]%nat, ranked_ABC) ∧
  run (_evaluate_candidates_with_ai env_with_key chat_fenced
         (loads_decision (JInt 5) "sixth") py_str_none "payment module") ranked_ABC
    = (Ok [0; 1; 2]%nat, ranked_ABC).
Proof.
  intros empty. split; [|split; [|split]].
  - apply (adjudication_noop env_with_key chat_fenced
             (loads_decision (JInt 0) "first") py_str_none "payment module" empty).
    apply na_empty_list. reflexivity.
  - apply (adjudication_noop env_unset chat_fenced
             (loads_decision (JInt 2) "third") py_str_none "payment module" ranked_ABC).
    apply na_no_credential. reflexivity.
  - apply (adjudication_noop env_with_key chat_unavailable
             (loads_decision (JInt 2) "third") py_str_none "payment module" ranked_ABC).
    apply (na_status _ _ _ _ _ 503 (Raise JSONDecodeError)); [reflexivity|lia].
  - apply (adjudication_noop env_with_key chat_fenced
             (loads_decision (JInt 5) "sixth") py_str_none "payment module" ranked_ABC).
    apply (na_invalid_index _ _ _ _ _
             (completion "```json DECISION ```") "```json DECISION ```"
             (JObj [("selected_index", JInt 5); ("reasoning", JStr "sixth")])
             (JInt 5)); try reflexivity.
    right. exists 5. split; [reflexivity|]. cbn. lia.
Defined.

(** C10.  On every path adjudication returns, and what it returns is the
    input list rearranged: the same object references with the same
    multiplicities, hence the same length.  No object is created or
    deleted, every object keeps its name, URL, description and stars, and
    at most one object has its score and rationale changed. *)
Theorem adjudication_preserves_candidates
        (getenv : string → option string)
        (chat_completions : chat_request → http_response)
        (json_loads : string → result json) (py_str : json → string)
        (requirement : string) (st : scout_state) :
  ∃ st',
    run (_evaluate_candidates_with_ai getenv chat_completions json_loads py_str
           requirement) st = (Ok (candidates st'), st') ∧
    candidates st' ≡ₚ candidates st ∧
    length (candidates st') = length (candidates st) ∧
    dom (objs st') = dom (objs st) ∧
    (∀ r c', objs st' !! r = Some c' →
             ∃ c, objs st !! r = Some c ∧ same_identity c c') ∧
    (∃ sel, ∀ r, r ≠ sel → objs st' !! r = objs st !! r).
Proof.
  destruct (evaluate_cases getenv chat_completions json_loads py_str requirement st)
    as [Hsame|(i & sel & ai_reason & Hsel & Hrun)].
  - exists st. repeat split; try done.
    + intros r c' Hr. exists c'. by repeat split.
    + exists 0%nat. done.
  - exists (promoted i sel ai_reason st).
    assert (candidates (promoted i sel ai_reason st) ≡ₚ candidates st) as Hperm.
    { cbn. symmetry. by apply delete_Permutation. }
    split; [done|]. split; [done|]. split; [by rewrite Hperm|].
    split; [cbn; by rewrite !dom_alter_L|].
    split.
    + intros r c'. cbn. destruct (decide (r = sel)) as [->|Hne].
      * rewrite !lookup_alter_eq. destruct (objs st !! sel) as [c|]; [|done].
        cbn. intros [= <-]. exists c. by repeat split.
      * rewrite !lookup_alter_ne by done. intros Hr. exists c'. by repeat split.
    + exists sel. intros r Hne. cbn. by rewrite !lookup_alter_ne.
Qed.

(** * Properties of the scorer *)

Lemma prefix_append (s t : string) : String.prefix s (s +:+ t) = true.
Proof.
  induction s as [|c s IH].
  - change ("" +:+ t) with t. by destruct t.
  - change (String c s +:+ t) with (String c (s +:+ t)). cbn [String.prefix].
    by destruct (ascii_dec c c).
Qed.

Lemma append_empty_r (s : string) : s +:+ "" = s.
Proof.
  induction s as [|c s IH]; [done|].
  change (String c s +:+ "") with (String c (s +:+ "")). by rewrite IH.
Qed.

Lemma append_assoc (s t u : string) : (s +:+ t) +:+ u = s +:+ t +:+ u.
Proof.
  induction s as [|c s IH]; [done|].
  change ((String c s +:+ t) +:+ u) with (String c ((s +:+ t) +:+ u)).
  by rewrite IH.
Qed.

Lemma keyword_rules_run (candidate : RepoCandidate) (requirement : string)
      (st : Z * string) :
  run (keyword_rules candidate requirement) st =
  (Ok tt, snd (run (keyword_rules candidate requirement) st)).
Proof.
  unfold keyword_rules, run, bind.
  destruct (_ && _)%bool; destruct (_ && _)%bool; try destruct (str_in "sdk" _);
    reflexivity.
Qed.

Lemma penalty_rule_run (candidate : RepoCandidate) (st : Z * string) :
  run (penalty_rule candidate) st =
  (Ok tt,
   if (str_in "system" (lower (description candidate)) &&
       negb (str_in "module" (lower (description candidate))))%bool
   then (st.1 - 10, st.2 +:+ standalone_warning)
   else st).
Proof. unfold penalty_rule, run. by destruct (_ && _)%bool. Qed.

Lemma heuristic_rules_run (candidate : RepoCandidate) (requirement : string) :
  run (heuristic_rules candidate requirement) baseline =
  (Ok tt, heuristic_result candidate requirement).
Proof.
  unfold heuristic_result, heuristic_rules, run, bind.
  pose proof (keyword_rules_run candidate requirement baseline) as Hk.
  unfold run in Hk. rewrite Hk.
  pose proof (penalty_rule_run candidate
                (snd (keyword_rules candidate requirement baseline))) as Hp.
  unfold run in Hp. by rewrite Hp.
Qed.

Lemma heuristic_result_eq (candidate : RepoCandidate) (requirement : string) :
  heuristic_result candidate requirement =
  let before := keyword_result candidate requirement in
  if (str_in "system" (lower (description candidate)) &&
      negb (str_in "module" (lower (description candidate))))%bool
  then (before.1 - 10, before.2 +:+ standalone_warning)
  else before.
Proof.
  unfold heuristic_result, keyword_result, heuristic_rules, run, bind.
  pose proof (keyword_rules_run candidate requirement baseline) as Hk.
  unfold run in Hk. rewrite Hk.
  pose proof (penalty_rule_run candidate
                (snd (keyword_rules candidate requirement baseline))) as Hp.
  unfold run in Hp. by rewrite Hp.
Qed.

Section DeepRead.

Variable fetch_files : string → result (gmap string string).

(** The deep read returns on every path; it adds 0 or 20 to the score
    and only ever appends to the rationale. *)
Lemma deep_read_run (candidate : RepoCandidate) (st : Z * string) :
  ∃ bonus tail,
    run (deep_read fetch_files candidate) st =
    (Ok tt, (st.1 + bonus, st.2 +:+ tail)) ∧ (bonus = 0 ∨ bonus = 20).
Proof.
  destruct st as [score reason].
  unfold deep_read, run, bind, get, try_except, lift. cbn [fst snd].
  destruct (Z.leb 60 score);
    [|exists 0, ""; rewrite append_empty_r, Z.add_0_r; by auto].
  destruct (fetch_files (url candidate)) as [files|e];
    [|exists 0, ""; cbn; rewrite append_empty_r, Z.add_0_r; by auto].
  destruct (files !! "pom.xml") as [pom|];
    [destruct (str_in "jeecg-boot-starter" pom);
     destruct (str_in "mybatis-plus" pom)|];
    destruct (files !! "package.json"); cbn;
    rewrite ?append_assoc;
    try (eexists 20, _; split; [reflexivity|by right]);
    try (eexists 0, _; rewrite Z.add_0_r; split; [reflexivity|by left]).
  exists 0, "". rewrite append_empty_r, Z.add_0_r. by auto.
Qed.


Lemma deep_read_no_signal (candidate : RepoCandidate) (st : Z * string) :
  no_signal (fetch_files (url candidate)) →
  run (deep_read fetch_files candidate) st = (Ok tt, st).
Proof.
  unfold no_signal, deep_read, run, bind, get, try_except, lift.
  destruct (Z.leb 60 st.1); [|done].
  destruct (fetch_files (url candidate)) as [files|e]; [|done].
  by intros [-> ->].
Qed.

Lemma analyze_match_eq (candidate : RepoCandidate) (requirement : string) :
  _analyze_match fetch_files candidate requirement =
  Ok (snd (run (deep_read fetch_files candidate)
             (heuristic_result candidate requirement))).
Proof.
  unfold _analyze_match.
  destruct (deep_read_run candidate (heuristic_result candidate requirement))
    as (bonus & tail & Hrun & _).
  pose proof (heuristic_rules_run candidate requirement) as Hh.
  unfold run, bind, get in *. by rewrite Hh, Hrun.
Qed.

Lemma analyze_match_total (candidate : RepoCandidate) (requirement : string) :
  ∃ score reason,
    _analyze_match fetch_files candidate requirement = Ok (score, reason).
Proof.
  rewrite analyze_match_eq.
  destruct (snd _) as [score reason]. by exists score, reason.
Qed.

End DeepRead.


(** C7 (as amended).  When the lower-cased description contains "system"
    and does not contain "module", the rules subtract 10 from the score
    that the keyword rules left and append the warning to the rationale
    that they left; the returned rationale still starts with that text,
    and the returned score is the penalised one, or 20 more after a
    confirming deep read. *)
Theorem standalone_penalty
        (fetch_files : string → result (gmap string string))
        (requirement : string) (candidate : RepoCandidate) :
  str_in "system" (lower (description candidate)) = true →
  str_in "module" (lower (description candidate)) = false →
  let before := keyword_result candidate requirement in
  heuristic_result candidate requirement =
    (before.1 - 10, before.2 +:+ standalone_warning) ∧
  ∃ score reason,
    _analyze_match fetch_files candidate requirement = Ok (score, reason) ∧
    (score = before.1 - 10 ∨ score = before.1 - 10 + 20) ∧
    String.prefix (before.2 +:+ standalone_warning) reason = true.
Proof.
  intros Hsys Hmod before.
  assert (heuristic_result candidate requirement =
          (before.1 - 10, before.2 +:+ standalone_warning)) as Hh.
  { rewrite heuristic_result_eq. cbn zeta. by rewrite Hsys, Hmod. }
  split; [done|].
  destruct (deep_read_run fetch_files candidate (heuristic_result candidate requirement))
    as (bonus & tail & Hrun & Hbonus).
  exists ((heuristic_result candidate requirement).1 + bonus),
         ((heuristic_result candidate requirement).2 +:+ tail).
  split; [by rewrite analyze_match_eq, Hrun|].
  rewrite Hh. cbn [fst snd]. split.
  - destruct Hbonus as [-> | ->]; [left; lia|by right].
  - apply prefix_append.
Qed.

Lemma standalone_penalty_witness :
  heuristic_result jeepay "payment" =
    (40, "Basic match. Warning: Standalone system, migration might be complex.") ∧
  ∃ score reason,
    _analyze_match fetch_jeecg_pom jeepay "payment" = Ok (score, reason) ∧
    (score = 40 ∨ score = 60) ∧
    String.prefix
      "Basic match. Warning: Standalone system, migration might be complex."
      reason = true.
Proof.
  apply (standalone_penalty fetch_jeecg_pom "payment" jeepay); reflexivity.
Defined.

(** C7, as stated with the keyword "application": the description below
    contains "application" and not "module", yet the penalty rule leaves
    score and rationale as the keyword rules left them, and the scorer
    returns the baseline. *)
Lemma application_keyword_not_penalised :
  str_in "application" (lower (description billing_app)) = true ∧
  str_in "module" (lower (description billing_app)) = false ∧
  heuristic_result billing_app "billing service" =
    keyword_result billing_app "billing service" ∧
  _analyze_match fetch_readme billing_app "billing service" = Ok (50, "Basic match.").
Proof. by vm_compute. Qed.




(** * Properties of the search phase *)

Section Search.

Variable github_search : string → http_response.
Variable coerce_str : json → option string.
Variable coerce_int : json → option Z.

Local Abbreviation search_real :=
  (_search_github_real github_search coerce_str coerce_int).

(** The real search never raises: every exception becomes the empty list. *)
Lemma search_real_returns (query : string) :
  ∃ l, search_real query = Ok l.
Proof.
  unfold _search_github_real, rcatch.
  destruct (match github_search _ with HttpRaises _ => _ | _ => _ end);
    by eexists.
Qed.

(** A non-empty result of the real search is the conversion of all the
    items of a 200 response. *)
Lemma search_real_nonempty (query : string) (c : RepoCandidate)
      (l : list RepoCandidate) :
  search_real query = Ok (c :: l) →
  all_from_search github_search coerce_str coerce_int query (c :: l).
Proof.
  unfold _search_github_real, rcatch, rbind, all_from_search.
  destruct (github_search _) as [e|status body] eqn:Hs; [done|].
  destruct (Z.eqb_spec status 200) as [->|Hne]; cbn [negb]; [|done].
  destruct body as [data|e]; [|done].
  destruct (dict_get_default data "items" (JArr [])) as [v|e] eqn:Hv; [|done].
  destruct (iter v) as [items|e] eqn:Hitems; [|done].
  destruct (mapM _ items) as [l'|e] eqn:Hmap; [|done].
  intros [= ->]. by exists data, v, items.
Qed.

Lemma search_real_failed (requirement : string) :
  search_failed github_search requirement → search_real requirement = Ok [].
Proof.
  unfold _search_github_real, rcatch, rbind.
  intros [e Hs|status body Hs Hne|data Hs Hitems]; rewrite Hs.
  - done.
  - by destruct (Z.eqb_spec status 200).
  - cbn. by rewrite Hitems.
Qed.

End Search.

(** C3.  If the primary query raises, answers with a status other than
    200, or returns no items, the search phase yields exactly the
    built-in fallback list.  In every case it yields either exactly that
    list or exactly the non-empty list converted from the items of a
    successful search, never a combination of both. *)
Theorem search_fallback
        (github_search : string → http_response)
        (coerce_str : json → option string) (coerce_int : json → option Z)
        (requirement : string) :
  (search_failed github_search requirement →
   search_phase github_search coerce_str coerce_int requirement =
     Ok (_mock_search_github requirement)) ∧
  (search_phase github_search coerce_str coerce_int requirement =
     Ok (_mock_search_github requirement) ∨
   ∃ l, l ≠ [] ∧
        all_from_search github_search coerce_str coerce_int requirement l ∧
        search_phase github_search coerce_str coerce_int requirement = Ok l).
Proof.
  split.
  - intros Hfail. unfold search_phase, rbind.
    by rewrite (search_real_failed _ _ _ _ Hfail).
  - unfold search_phase, rbind.
    destruct (search_real_returns github_search coerce_str coerce_int requirement)
      as [[|c l] Hl]; rewrite Hl; [by left|].
    right. exists (c :: l). split; [done|]. split; [|done].
    by apply search_real_nonempty.
Qed.

Lemma search_fallback_witness :
  search_phase github_down strict_str strict_int "jeecg module for demo" =
    Ok (_mock_search_github "jeecg module for demo") ∧
  search_phase github_timeout strict_str strict_int "jeecg module for demo" =
    Ok (_mock_search_github "jeecg module for demo") ∧
  search_phase github_no_match strict_str strict_int "jeecg module for demo" =
    Ok (_mock_search_github "jeecg module for demo").
Proof.
  split; [|split].
  - apply (search_fallback github_down strict_str strict_int "jeecg module for demo").
    apply (sf_status _ _ 403 (Raise JSONDecodeError)); [reflexivity|lia].
  - apply (search_fallback github_timeout strict_str strict_int "jeecg module for demo").
    apply (sf_transport _ _ HTTPError). reflexivity.
  - apply (search_fallback github_no_match strict_str strict_int "jeecg module for demo").
    apply (sf_no_items _ _ (JObj [("total_count", JInt 0); ("items", JArr [])]));
      reflexivity.
Defined.

(** * Properties of the template manager *)

Section TemplateManagerFacts.

Variable git :
  list (list string * path) → list string → path → gmap path node →
  git_exit * gmap path node.
Variable cache_base : path.
Variable registry : gmap string template_meta.

(** One invocation: the exit decides between return and raise, the
    file system is what git left, and the log grows by the command. *)
Lemma run_git_spec (args : list string) (cwd : path) (w : world) :
  run (_run_git git args cwd) w =
  (match (git (git_log w) args cwd (files w)).1 with
   | GitOk out => Ok (strip out)
   | GitFailed err => Raise (git_error args err)
   | GitNotStarted => Raise OSError
   end,
   {| files := (git (git_log w) args cwd (files w)).2;
      git_log := git_log w ++ [(args, cwd)] |}).
Proof.
  unfold run, _run_git.
  destruct (git (git_log w) args cwd (files w)) as [[out|err|] fs']; done.
Qed.

Lemma truthy_str_Some (s : string) : s ≠ "" → truthy_str (Some s) = true.
Proof. by destruct s. Qed.

Lemma update_git_repo_log (target_dir : path) (meta : template_meta)
      (w : world) (r : result unit) (w' : world) :
  run (_update_git_repo git target_dir meta) w = (r, w') →
  let b := default "master" (branch meta) in
  let fetch_cmd := (["fetch"; "--depth"; "1"; "origin"; b], target_dir) in
  let reset_cmd := (["reset"; "--hard"; "origin/" +:+ b], target_dir) in
  match (git (git_log w) fetch_cmd.1 target_dir (files w)).1 with
  | GitOk _ => git_log w' = git_log w ++ [fetch_cmd; reset_cmd]
  | _ => git_log w' = git_log w ++ [fetch_cmd] ∧ is_ok r = false
  end.
Proof.
  unfold _update_git_repo, run, bind. intros Hrun. cbn zeta.
  pose proof (run_git_spec
                ["fetch"; "--depth"; "1"; "origin"; default "master" (branch meta)]
                target_dir w) as Hfetch.
  unfold run in Hfetch. rewrite Hfetch in Hrun. clear Hfetch. cbn [fst] in *.
  destruct ((git (git_log w) _ target_dir (files w)).1) as [out|err|].
  - match type of Hrun with context [_run_git git ?a ?c ?w1] =>
      pose proof (run_git_spec a c w1) as Hreset
    end.
    unfold run in Hreset. rewrite Hreset in Hrun. clear Hreset.
    cbn [git_log files] in Hrun.
    destruct ((git _ _ target_dir _).1) in Hrun;
      injection Hrun as <- <-; cbn; by rewrite <- app_assoc.
  - by injection Hrun as <- <-.
  - by injection Hrun as <- <-.
Qed.

(** With a cached copy and a forced update, the block is the update;
    without a cached copy it is the fresh download, forced or not. *)
Lemma ensure_cached_hit_forced (cache_path : path) (meta : template_meta)
      (w : world) :
  path_exists cache_path w = true →
  run (ensure_cached git cache_path meta true) w =
  run (_update_git_repo git cache_path meta) w.
Proof. intros Hex. unfold ensure_cached, run, bind, get. by rewrite Hex. Qed.

Lemma ensure_cached_miss (cache_path : path) (meta : template_meta)
      (force_update : bool) (w : world) :
  path_exists cache_path w = false →
  run (ensure_cached git cache_path meta force_update) w =
  run (_fetch_git_repo git cache_path meta) w.
Proof. intros Hex. unfold ensure_cached, run, bind, get. by rewrite Hex. Qed.

(** Resolution after the cache block: no git command is issued, and
    the outcome is decided by the sub-path check alone. *)
Lemma get_template_path_spec (key : string) (force_update : bool)
      (meta : template_meta) (w : world) :
  registry !! key = Some meta → type_ meta = Some "git" →
  let cache_path := path_join cache_base key in
  run (get_template_path git cache_base registry key force_update) w =
  match run (ensure_cached git cache_path meta force_update) w with
  | (Raise e, w1) => (Raise e, w1)
  | (Ok _, w1) =>
      if truthy_str (sub_path meta) then
        let target_path := path_join cache_path (default "" (sub_path meta)) in
        if path_exists target_path w1 then (Ok target_path, w1)
        else (Raise (sub_path_error (default "" (sub_path meta)) key), w1)
      else (Ok cache_path, w1)
  end.
Proof.
  intros Hreg Htype. unfold get_template_path, run, bind, get.
  rewrite Hreg, Htype, bool_decide_eq_true_2 by done. cbn [negb].
  destruct (ensure_cached git _ meta force_update w) as [[[]|e] w1]; [|done].
  destruct (truthy_str (sub_path meta)); [|done].
  by destruct (path_exists _ w1).
Qed.

Lemma bind_inv {S A B} (c : M S A) (k : A → M S B) (s : S)
      (r : result B) (s' : S) :
  run (bind c k) s = (r, s') →
  (∃ e, run c s = (Raise e, s') ∧ r = Raise e) ∨
  (∃ a s1, run c s = (Ok a, s1) ∧ run (k a) s1 = (r, s')).
Proof.
  unfold run, bind. destruct (c s) as [[a|e] s1].
  - intros Hk. right. by exists a, s1.
  - intros [= <- <-]. left. by exists e.
Qed.

Lemma mkdir_each_raises (ps : list path) (w : world) (e : exn) (w' : world) :
  run (mkdir_each ps) w = (Raise e, w') → e = OSError.
Proof.
  revert w. induction ps as [|q ps IH]; intros w; [done|].
  cbn [mkdir_each]. unfold run, bind, get.
  destruct (files w !! q) as [[|text]|].
  - apply IH.
  - by intros [= <- _].
  - unfold put. apply IH.
Qed.

Lemma write_text_raises (p : path) (text : string) (w : world) (e : exn)
      (w' : world) :
  run (write_text p text) w = (Raise e, w') → e = OSError.
Proof.
  unfold write_text, run, bind, get, put, raise.
  destruct (files w !! removelast p) as [[|?]|];
    destruct (files w !! p) as [[|?]|]; by intros [= <- _].
Qed.

Lemma run_git_raises (args : list string) (cwd : path) (w : world)
      (msg : string) (w' : world) :
  run (_run_git git args cwd) w = (Raise (TemplateError msg), w') →
  last (git_log w') = Some (args, cwd).
Proof.
  rewrite run_git_spec. intros [= _ <-]. cbn. apply last_snoc.
Qed.

Lemma remove_tree_gone (dir : path) (w : world) :
  files (remove_tree dir w) !! dir = None.
Proof.
  cbn. apply map_lookup_filter_None_2. right. intros x _ Hnot.
  by apply Hnot.
Qed.

(** The cleanup that the code does perform: when the pull is the
    command that fails, the target directory is gone when the error
    reaches the caller. *)
Lemma fetch_pull_failure_removes_directory (target_dir : path)
      (meta : template_meta) (w : world) (msg : string) (w' : world) :
  run (_fetch_git_repo git target_dir meta) w = (Raise (TemplateError msg), w') →
  last (git_log w') =
    Some (["pull"; "--depth"; "1"; "origin"; default "master" (branch meta)],
          target_dir) →
  files w' !! target_dir = None.
Proof.
  unfold _fetch_git_repo. intros Hrun Hlast.
  destruct (repository meta) as [repo_url|]; [|by inversion Hrun].
  rewrite bind_lift_Ok in Hrun.
  apply bind_inv in Hrun as [(e & Hc & [= <-])|([] & w1 & _ & Hrun)].
  { by apply mkdir_each_raises in Hc. }
  apply bind_inv in Hrun as [(e & Hc & [= <-])|(out & w2 & _ & Hrun)].
  { apply run_git_raises in Hc. rewrite Hc in Hlast. by inversion Hlast. }
  apply bind_inv in Hrun as [(e & Hc & [= <-])|(out' & w3 & _ & Hrun)].
  { apply run_git_raises in Hc. rewrite Hc in Hlast. by inversion Hlast. }
  apply bind_inv in Hrun as [(e & Hc & [= <-])|([] & w4 & _ & Hrun)].
  { destruct (truthy_str (sub_path meta)); [|by inversion Hc].
    apply bind_inv in Hc as [(e & Hc & [= <-])|(out'' & w4 & _ & Hc)].
    - apply run_git_raises in Hc. rewrite Hc in Hlast. by inversion Hlast.
    - by apply write_text_raises in Hc. }
  unfold run, try_except, bind in Hrun.
  pose proof (run_git_spec
                ["pull"; "--depth"; "1"; "origin"; default "master" (branch meta)]
                target_dir w4) as Hpull.
  unfold run in Hpull. rewrite Hpull in Hrun. clear Hpull.
  destruct ((git (git_log w4) _ target_dir (files w4)).1) as [o|err|];
    [by inversion Hrun| |by inversion Hrun].
  cbn [is_TemplateError git_error] in Hrun.
  unfold rmtree, bind, get, put, raise in Hrun. cbn [files] in Hrun.
  match type of Hrun with
  | context [match ?m !! target_dir with _ => _ end] =>
      destruct (m !! target_dir) as [[|?]|] eqn:Hdir
  end; try by inversion Hrun.
  injection Hrun as _ <-. apply remove_tree_gone.
Qed.

(** The ad-hoc fetch returns a mapping on every path. *)
Lemma fetch_analysis_files_returns (temp_path : path) (repo_url branch : string)
      (w : world) :
  ∃ results w',
    run (fetch_analysis_files git temp_path repo_url branch) w = (Ok results, w').
Proof.
  unfold fetch_analysis_files.
  match goal with
  | |- context [try_except ?c any_exception _] =>
      destruct (try_except_any_returns c (∅ : gmap string string)
                  {| files := <[temp_path := Dir]> (files w);
                     git_log := git_log w |})
        as (results & w2 & Hbody)
  end.
  exists results, (remove_tree temp_path w2).
  unfold run, bind, modify in *. by rewrite Hbody.
Qed.

Lemma run_git_Ok (args : list string) (cwd : path) (w : world)
      (a : string) (w' : world) :
  run (_run_git git args cwd) w = (Ok a, w') →
  ∃ out, (git (git_log w) args cwd (files w)).1 = GitOk out.
Proof.
  rewrite run_git_spec.
  destruct ((git (git_log w) args cwd (files w)).1) as [out|err|];
    [by exists out|done|done].
Qed.

(** A git command of the sequence that cannot succeed empties the result. *)
Lemma fetch_analysis_files_refused (temp_path : path) (repo_url branch : string)
      (args : list string) (w : world) :
  args ∈ analysis_commands repo_url branch → git_refuses git args →
  ∃ w', run (fetch_analysis_files git temp_path repo_url branch) w = (Ok ∅, w').
Proof.
  intros Hin Href. unfold fetch_analysis_files.
  match goal with
  | |- context [try_except ?c any_exception _] => set (body := c)
  end.
  set (w1 := {| files := <[temp_path := Dir]> (files w); git_log := git_log w |}).
  assert (∀ m w2, run body w1 ≠ (Ok m, w2)) as Hbody.
  { intros m w2 Hrun. subst body.
    apply bind_inv in Hrun as [(e & _ & [=])|(o1 & s1 & H1 & Hrun)].
    apply bind_inv in Hrun as [(e & _ & [=])|(o2 & s2 & H2 & Hrun)].
    apply bind_inv in Hrun as [(e & _ & [=])|(o3 & s3 & H3 & Hrun)].
    apply bind_inv in Hrun as [(e & _ & [=])|(o4 & s4 & _ & Hrun)].
    apply bind_inv in Hrun as [(e & _ & [=])|(o5 & s5 & H5 & Hrun)].
    apply run_git_Ok in H1 as [out1 H1]. apply run_git_Ok in H2 as [out2 H2].
    apply run_git_Ok in H3 as [out3 H3]. apply run_git_Ok in H5 as [out5 H5].
    unfold analysis_commands in Hin. rewrite !elem_of_cons in Hin.
    destruct Hin as [->|[->|[->|[->|Hin]]]];
      [by eapply Href..|by apply elem_of_nil in Hin]. }
  exists (remove_tree temp_path (snd (run body w1))).
  unfold run, bind, modify, try_except in *. fold w1.
  destruct (body w1) as [[m|e] w2] eqn:Hb; [by destruct (Hbody m w2)|done].
Qed.

(** *** Which git commands a statement can issue *)

Lemma issues_only_silent {A} (P : list string * path → Prop) (c : M world A) :
  (∀ w r w', run c w = (r, w') → git_log w' = git_log w) → issues_only P c.
Proof.
  intros Hc w r w' Hrun. exists []. split; [|done].
  rewrite app_nil_r. by eapply Hc.
Qed.

Lemma issues_only_bind {A B} (P : list string * path → Prop)
      (c : M world A) (k : A → M world B) :
  issues_only P c → (∀ a, issues_only P (k a)) → issues_only P (bind c k).
Proof.
  intros Hc Hk w r w' Hrun.
  apply bind_inv in Hrun as [(e & Hrun & ->)|(a & w1 & Hrun & Hrun')].
  - by apply Hc in Hrun.
  - apply Hc in Hrun as (l1 & Hl1 & HP1).
    apply Hk in Hrun' as (l2 & Hl2 & HP2).
    exists (l1 ++ l2). split; [by rewrite Hl2, Hl1, app_assoc|by apply Forall_app].
Qed.

Lemma issues_only_try_except {A} (P : list string * path → Prop)
      (c : M world A) (handles : exn → bool) (h : exn → M world A) :
  issues_only P c → (∀ e, issues_only P (h e)) →
  issues_only P (try_except c handles h).
Proof.
  intros Hc Hh w r w'. unfold run, try_except.
  destruct (c w) as [[a|e] w1] eqn:Hrun; [intros [= <- <-]; by eapply Hc|].
  apply Hc in Hrun as (l1 & Hl1 & HP1).
  destruct (handles e); [|intros [= <- <-]; by exists l1].
  intros Hrun'. apply Hh in Hrun' as (l2 & Hl2 & HP2).
  exists (l1 ++ l2). split; [by rewrite Hl2, Hl1, app_assoc|by apply Forall_app].
Qed.

Lemma issues_only_run_git (P : list string * path → Prop)
      (args : list string) (cwd : path) :
  P (args, cwd) → issues_only P (_run_git git args cwd).
Proof.
  intros HP w r w'. rewrite run_git_spec. intros [= _ <-].
  exists [(args, cwd)]. split; [done|]. by constructor.
Qed.

Lemma issues_only_mkdir_each (P : list string * path → Prop) (ps : list path) :
  issues_only P (mkdir_each ps).
Proof.
  apply issues_only_silent. induction ps as [|q ps IH]; intros w r w'.
  - by intros [= _ <-].
  - cbn [mkdir_each]. unfold run, bind, get, put, raise.
    destruct (files w !! q) as [[|text]|].
    + apply IH.
    + by intros [= _ <-].
    + intros Hrun. by apply IH in Hrun.
Qed.

Lemma issues_only_write_text (P : list string * path → Prop)
      (p : path) (text : string) :
  issues_only P (write_text p text).
Proof.
  apply issues_only_silent. intros w r w'.
  unfold write_text, run, bind, get, put, raise.
  destruct (files w !! removelast p) as [[|?]|];
    destruct (files w !! p) as [[|?]|]; by intros [= _ <-].
Qed.

Lemma issues_only_rmtree (P : list string * path → Prop) (dir : path) :
  issues_only P (rmtree dir).
Proof.
  apply issues_only_silent. intros w r w'.
  unfold rmtree, run, bind, get, put, raise.
  destruct (files w !! dir) as [[|?]|]; by intros [= _ <-].
Qed.

Lemma issues_only_pure {A} (P : list string * path → Prop) (r : result A) :
  issues_only P (lift r).
Proof. apply issues_only_silent. by intros w r' w' [= _ <-]. Qed.

(** The fresh download issues init, remote add, config and pull, in
    particular neither a fetch nor a reset. *)
Lemma fetch_git_repo_issues (target_dir : path) (meta : template_meta) :
  issues_only not_update_command (_fetch_git_repo git target_dir meta).
Proof.
  unfold _fetch_git_repo.
  apply issues_only_bind; [apply issues_only_pure|intros repo_url].
  apply issues_only_bind; [apply issues_only_mkdir_each|intros _].
  apply issues_only_bind; [by apply issues_only_run_git|intros _].
  apply issues_only_bind; [by apply issues_only_run_git|intros _].
  apply issues_only_bind.
  { destruct (truthy_str (sub_path meta)); [|apply (issues_only_pure _ (Ok tt))].
    apply issues_only_bind; [by apply issues_only_run_git|intros _].
    apply issues_only_write_text. }
  intros _. apply issues_only_try_except.
  - apply issues_only_bind; [by apply issues_only_run_git|intros _].
    apply (issues_only_pure _ (Ok tt)).
  - intros e. apply issues_only_bind; [apply issues_only_rmtree|intros _].
    apply (issues_only_pure _ (Raise e)).
Qed.

Lemma get_template_path_Ok_git (key : string) (force_update : bool)
      (meta : template_meta) (w : world) (p : path) (w' : world) :
  registry !! key = Some meta →
  run (get_template_path git cache_base registry key force_update) w = (Ok p, w') →
  type_ meta = Some "git".
Proof.
  intros Hreg. unfold get_template_path, run. rewrite Hreg.
  destruct (bool_decide_reflect (type_ meta = Some "git")); [done|].
  cbn [negb]. unfold raise. discriminate.
Qed.

End TemplateManagerFacts.

(** C5.  For a registry entry with a sub-path, a resolve that succeeds
    returns exactly [<cache_base>/<key>/<sub_path>], and that path exists
    in the file system it leaves; if the cache block completes and the
    sub-path does not exist afterwards, the resolve raises the error
    that names the sub-path and the key. *)
Theorem resolve_sub_path
        (git : list (list string * path) → list string → path →
               gmap path node → git_exit * gmap path node)
        (cache_base : path) (registry : gmap string template_meta)
        (key : string) (force_update : bool) (meta : template_meta)
        (sub : string) (w : world) (r : result path) (w' : world) :
  registry !! key = Some meta →
  sub_path meta = Some sub → sub ≠ "" →
  run (get_template_path git cache_base registry key force_update) w = (r, w') →
  let workspace := path_join cache_base key in
  (∀ p, r = Ok p → p = path_join workspace sub ∧ path_exists p w' = true) ∧
  (type_ meta = Some "git" →
   ∀ w1, run (ensure_cached git workspace meta force_update) w = (Ok tt, w1) →
         path_exists (path_join workspace sub) w1 = false →
         r = Raise (TemplateError
                      ("Sub-path '" +:+ sub +:+ "' not found in repo for " +:+ key)) ∧
         w' = w1).
Proof.
  intros Hreg Hsub Hne Hrun workspace. split.
  - intros p ->.
    pose proof (get_template_path_Ok_git _ _ _ _ _ _ _ _ _ Hreg Hrun) as Htype.
    rewrite (get_template_path_spec git cache_base registry key force_update
               meta w Hreg Htype) in Hrun.
    cbn zeta in Hrun. fold workspace in Hrun.
    destruct (run (ensure_cached git workspace meta force_update) w)
      as [[[]|e] w1]; [|done].
    rewrite Hsub, truthy_str_Some in Hrun by done.
    change (default "" (Some sub)) with sub in Hrun.
    destruct (path_exists (path_join workspace sub) w1) eqn:Hex; [|done].
    by injection Hrun as <- <-.
  - intros Htype w1 Hcache Hmissing.
    rewrite (get_template_path_spec git cache_base registry key force_update
               meta w Hreg Htype) in Hrun.
    cbn zeta in Hrun. fold workspace in Hrun. rewrite Hcache in Hrun.
    rewrite Hsub, truthy_str_Some in Hrun by done.
    change (default "" (Some sub)) with sub in Hrun.
    rewrite Hmissing in Hrun. by injection Hrun as <- <-.
Qed.

Lemma resolve_sub_path_witness :
  let target := [".template_cache"; "jeecg-demo-local"; "jeecg-module-demo"] in
  let found := run (get_template_path (git_sim demo_tree) demo_cache demo_registry
                      "jeecg-demo-local" false) fresh_world in
  let missing := run (get_template_path (git_sim []) demo_cache demo_registry
                        "jeecg-demo-local" false) fresh_world in
  fst found = Ok target ∧
  path_exists target (snd found) = true ∧
  fst missing =
    Raise (TemplateError
             "Sub-path 'jeecg-module-demo' not found in repo for jeecg-demo-local").
Proof.
  intros target found missing.
  assert (fst found = Ok target) as Hfound by (vm_compute; reflexivity).
  split; [exact Hfound|]. split.
  - destruct (resolve_sub_path (git_sim demo_tree) demo_cache demo_registry
                "jeecg-demo-local" false demo_sub_meta "jeecg-module-demo"
                fresh_world (fst found) (snd found)) as [Hok _];
      [reflexivity|reflexivity|discriminate|apply surjective_pairing|].
    by destruct (Hok target Hfound) as [_ Hex].
  - pose (w1 := snd (run (ensure_cached (git_sim [])
                            (path_join demo_cache "jeecg-demo-local")
                            demo_sub_meta false) fresh_world)).
    destruct (resolve_sub_path (git_sim []) demo_cache demo_registry
                "jeecg-demo-local" false demo_sub_meta "jeecg-module-demo"
                fresh_world (fst missing) (snd missing)) as [_ Herr];
      [reflexivity|reflexivity|discriminate|apply surjective_pairing|].
    destruct (Herr eq_refl w1) as [Hr _];
      [vm_compute; reflexivity|vm_compute; reflexivity|exact Hr].
Defined.

(** C6 (as amended).  For a registry key of the git type, a resolve with
    [force_update = True] on an existing working copy issues one shallow
    fetch of the tracked branch and, when that fetch succeeds, one hard
    reset to [origin/<branch>], and no other git command; when the fetch
    fails the resolve raises after the fetch alone.  When no working copy
    exists the cache block is the fresh download, and the forced resolve
    is the unforced one. *)
Theorem forced_update_cycle
        (git : list (list string * path) → list string → path →
               gmap path node → git_exit * gmap path node)
        (cache_base : path) (registry : gmap string template_meta)
        (key : string) (meta : template_meta)
        (w : world) (r : result path) (w' : world) :
  registry !! key = Some meta → type_ meta = Some "git" →
  run (get_template_path git cache_base registry key true) w = (r, w') →
  let cache_path := path_join cache_base key in
  let b := default "master" (branch meta) in
  let fetch_cmd := (["fetch"; "--depth"; "1"; "origin"; b], cache_path) in
  let reset_cmd := (["reset"; "--hard"; "origin/" +:+ b], cache_path) in
  (path_exists cache_path w = true →
   match (git (git_log w) fetch_cmd.1 cache_path (files w)).1 with
   | GitOk _ => git_log w' = git_log w ++ [fetch_cmd; reset_cmd]
   | _ => git_log w' = git_log w ++ [fetch_cmd] ∧ is_ok r = false
   end) ∧
  (path_exists cache_path w = false →
   run (ensure_cached git cache_path meta true) w =
     run (_fetch_git_repo git cache_path meta) w ∧
   run (get_template_path git cache_base registry key true) w =
     run (get_template_path git cache_base registry key false) w ∧
   ∃ l, git_log w' = git_log w ++ l ∧ Forall not_update_command l).
Proof.
  intros Hreg Htype Hrun cache_path b fetch_cmd reset_cmd. split.
  - intros Hex.
    rewrite (get_template_path_spec git cache_base registry key true meta w
               Hreg Htype) in Hrun.
    cbn zeta in Hrun. fold cache_path in Hrun.
    rewrite ensure_cached_hit_forced in Hrun by done.
    destruct (run (_update_git_repo git cache_path meta) w) as [r1 w1] eqn:Hup.
    pose proof (update_git_repo_log git cache_path meta w r1 w1 Hup) as Hlog.
    cbn zeta in Hlog. fold b in Hlog.
    assert (w' = w1 ∧ (is_ok r1 = false → is_ok r = false)) as [-> Hr].
    { destruct r1 as [[]|e]; [|by injection Hrun as <- <-].
      destruct (truthy_str (sub_path meta));
        [destruct (path_exists _ w1)|]; by injection Hrun as <- <-. }
    subst fetch_cmd. cbn [fst].
    destruct ((git (git_log w) _ cache_path (files w)).1); [done| |];
      destruct Hlog as [Hlog Hfail]; auto.
  - intros Hex. split; [by apply ensure_cached_miss|]. split.
    + rewrite !(get_template_path_spec git cache_base registry key _ meta w
                  Hreg Htype).
      cbn zeta. by rewrite !ensure_cached_miss.
    + rewrite (get_template_path_spec git cache_base registry key true meta w
                 Hreg Htype) in Hrun.
      cbn zeta in Hrun. fold cache_path in Hrun.
      rewrite ensure_cached_miss in Hrun by done.
      destruct (run (_fetch_git_repo git cache_path meta) w) as [r1 w1] eqn:Hfetch.
      apply fetch_git_repo_issues in Hfetch.
      assert (w' = w1) as ->; [|done].
      destruct r1 as [[]|e]; [|by injection Hrun as <- <-].
      destruct (truthy_str (sub_path meta));
        [destruct (path_exists _ w1)|]; by injection Hrun as <- <-.
Qed.

Lemma forced_update_cycle_witness :
  let cache_path := [".template_cache"; "jeecg-demo"] in
  let cached :=
    {| files := <[cache_path := Dir]> (files fresh_world); git_log := [] |} in
  git_log (snd (run (get_template_path (git_sim demo_tree) demo_cache demo_registry
                       "jeecg-demo" true) cached)) =
  [ (["fetch"; "--depth"; "1"; "origin"; "master"], cache_path);
    (["reset"; "--hard"; "origin/master"], cache_path) ].
Proof.
  intros cache_path cached.
  pose (out := run (get_template_path (git_sim demo_tree) demo_cache demo_registry
                      "jeecg-demo" true) cached).
  destruct (forced_update_cycle (git_sim demo_tree) demo_cache demo_registry
              "jeecg-demo" demo_meta cached (fst out) (snd out))
    as [Hcached _]; [reflexivity|reflexivity|apply surjective_pairing|].
  apply Hcached. reflexivity.
Defined.

(** C6, as stated: a forced resolve of a key that has no working copy
    succeeds with an init, a remote add and a pull; it issues no fetch
    and no reset. *)
Lemma forced_resolve_of_uncached_key :
  let cache_path := [".template_cache"; "jeecg-demo"] in
  let out := run (get_template_path (git_sim demo_tree) demo_cache demo_registry
                    "jeecg-demo" true) fresh_world in
  path_exists cache_path fresh_world = false ∧
  fst out = Ok cache_path ∧
  git_log (snd out) =
  [ (["init"], cache_path);
    (["remote"; "add"; "origin"; demo_url], cache_path);
    (["pull"; "--depth"; "1"; "origin"; "master"], cache_path) ] ∧
  Forall (fun c => head c.1 ≠ Some "fetch" ∧ head c.1 ≠ Some "reset")
         (git_log (snd out)).
Proof.
  intros cache_path out.
  assert (git_log (snd out) =
          [ (["init"], cache_path);
            (["remote"; "add"; "origin"; demo_url], cache_path);
            (["pull"; "--depth"; "1"; "origin"; "master"], cache_path) ]) as Hlog
    by (vm_compute; reflexivity).
  split; [by vm_compute|]. split; [by vm_compute|]. split; [done|].
  rewrite Hlog. repeat constructor; discriminate.
Qed.

(** C4, at the failing input: [git init], or [git remote add], exits
    with a non-zero status during the first download of an uncached key.
    The error reaches the caller, the directory that [mkdir] created is
    still there, and the next resolve takes it for a cache hit: it
    returns the empty directory without running git at all. *)
Theorem failed_setup_leaves_cache_directory :
  let cache_path := [".template_cache"; "jeecg-demo"] in
  let resolve git w :=
    run (get_template_path git demo_cache demo_registry "jeecg-demo" false) w in
  let after_init := resolve (git_failing "init" demo_tree) fresh_world in
  let after_remote := resolve (git_failing "remote" demo_tree) fresh_world in
  path_exists cache_path fresh_world = false ∧
  (fst after_init = Raise (git_error ["init"] "fatal: unable to proceed") ∧
   path_exists cache_path (snd after_init) = true ∧
   resolve (git_sim demo_tree) (snd after_init) = (Ok cache_path, snd after_init)) ∧
  (fst after_remote =
     Raise (git_error ["remote"; "add"; "origin"; demo_url] "fatal: unable to proceed") ∧
   path_exists cache_path (snd after_remote) = true ∧
   resolve (git_sim demo_tree) (snd after_remote) = (Ok cache_path, snd after_remote)).
Proof. intros cache_path resolve after_init after_remote. repeat split; by vm_compute. Qed.

(** The sibling path that does clean up: the same download with a
    failing [pull] leaves no directory, and the next resolve downloads
    again. *)
Lemma failed_pull_leaves_no_directory :
  let cache_path := [".template_cache"; "jeecg-demo"] in
  let after_pull :=
    run (get_template_path (git_failing "pull" demo_tree) demo_cache demo_registry
           "jeecg-demo" false) fresh_world in
  fst after_pull =
    Raise (git_error ["pull"; "--depth"; "1"; "origin"; "master"]
             "fatal: unable to proceed") ∧
  path_exists cache_path (snd after_pull) = false.
Proof. intros cache_path after_pull. split; by vm_compute. Qed.

(** C9.  The ad-hoc file fetch returns a mapping on every path, and the
    empty mapping when a git command of its sequence cannot succeed.
    [_analyze_match] returns whatever the fetcher does, and when the
    fetch raises or brings neither a [pom.xml] nor a [package.json] the
    result is the score and rationale that stood before the deep read. *)
Theorem deep_inspection_never_raises
        (git : list (list string * path) → list string → path →
               gmap path node → git_exit * gmap path node)
        (temp_path : path) (repo_url branch : string) (w : world)
        (fetch_files : string → result (gmap string string))
        (candidate : RepoCandidate) (requirement : string) :
  (∃ results w',
      run (fetch_analysis_files git temp_path repo_url branch) w = (Ok results, w')) ∧
  (∀ args, args ∈ analysis_commands repo_url branch → git_refuses git args →
           ∃ w', run (fetch_analysis_files git temp_path repo_url branch) w
                 = (Ok ∅, w')) ∧
  (∃ score reason,
      _analyze_match fetch_files candidate requirement = Ok (score, reason)) ∧
  (no_signal (fetch_files (url candidate)) →
   _analyze_match fetch_files candidate requirement =
     Ok (heuristic_result candidate requirement)).
Proof.
  split; [apply fetch_analysis_files_returns|].
  split; [intros args; apply fetch_analysis_files_refused|].
  split; [apply analyze_match_total|].
  intros Hno. by rewrite analyze_match_eq, deep_read_no_signal.
Qed.

Lemma deep_inspection_never_raises_witness :
  let git := git_failing "pull" demo_tree in
  let fetch := template_manager_fetch git ["tmp"; "scout"] fresh_world in
  fetch demo_url = Ok ∅ ∧
  _analyze_match fetch jeecg_demo "jeecg module for demo" =
    Ok (80, "High affinity: Jeecg module pattern detected.").
Proof.
  intros git fetch.
  destruct (deep_inspection_never_raises git ["tmp"; "scout"] demo_url "HEAD"
              fresh_world fetch jeecg_demo "jeecg module for demo")
    as (_ & Hrefused & _ & Hstands).
  split.
  - destruct (Hrefused ["pull"; "--depth"; "1"; "origin"; "HEAD"]) as [w' Hw'].
    + unfold analysis_commands. set_solver.
    + intros log cwd fs out. by vm_compute.
    + unfold fetch, template_manager_fetch. by rewrite Hw'.
  - apply Hstands. by vm_compute.
Defined.

(** * Further properties of the template manager *)

Ltac chase_log :=
  repeat match goal with
         | H : git_log ?x = _ |- context [git_log ?x] => rewrite H
         end;
  rewrite <- ?app_assoc; cbn [app]; try reflexivity.

Ltac is_prefix :=
  unfold download_commands, analysis_log, analysis_commands;
  try match goal with |- context [truthy_str ?o] => destruct (truthy_str o) end;
  cbn [app map]; by eexists.

Section TemplateManagerMore.

Variable git :
  list (list string * path) → list string → path → gmap path node →
  git_exit * gmap path node.
Variable cache_base : path.
Variable registry : gmap string template_meta.

Lemma run_git_log (args : list string) (cwd : path) (w : world)
      (r : result string) (w' : world) :
  run (_run_git git args cwd) w = (r, w') →
  git_log w' = git_log w ++ [(args, cwd)].
Proof. rewrite run_git_spec. by intros [= _ <-]. Qed.

Lemma mkdir_each_log (ps : list path) (w : world) (r : result unit) (w' : world) :
  run (mkdir_each ps) w = (r, w') → git_log w' = git_log w.
Proof.
  revert w. induction ps as [|q ps IH]; intros w.
  - by intros [= _ <-].
  - cbn [mkdir_each]. unfold run, bind, get, put, raise.
    destruct (files w !! q) as [[|text]|].
    + apply IH.
    + by intros [= _ <-].
    + intros Hrun. by apply IH in Hrun.
Qed.

Lemma write_text_log (p : path) (text : string) (w : world)
      (r : result unit) (w' : world) :
  run (write_text p text) w = (r, w') → git_log w' = git_log w.
Proof.
  unfold write_text, run, bind, get, put, raise.
  destruct (files w !! removelast p) as [[|?]|];
    destruct (files w !! p) as [[|?]|]; by intros [= _ <-].
Qed.

Lemma rmtree_log (dir : path) (w : world) (r : result unit) (w' : world) :
  run (rmtree dir) w = (r, w') → git_log w' = git_log w.
Proof.
  unfold rmtree, run, bind, get, put, raise.
  destruct (files w !! dir) as [[|?]|]; by intros [= _ <-].
Qed.

Lemma remove_tree_below (dir p : path) (w : world) :
  dir `prefix_of` p → files (remove_tree dir w) !! p = None.
Proof.
  intros Hpre. cbn. apply map_lookup_filter_None_2. right.
  intros x _ Hnot. by apply Hnot.
Qed.

(** What the last step of the download, the guarded pull, does. *)
Lemma guarded_pull_inv (target_dir : path) (b : string) (w : world)
      (r : result unit) (w' : world) :
  run (try_except
         (_run_git git ["pull"; "--depth"; "1"; "origin"; b] target_dir ;;; ret tt)
         is_TemplateError
         (fun e => rmtree target_dir ;;; raise e)) w = (r, w') →
  git_log w' =
    git_log w ++ [(["pull"; "--depth"; "1"; "origin"; b], target_dir)] ∧
  (∀ msg, r = Raise (TemplateError msg) →
          ∀ p, target_dir `prefix_of` p → files w' !! p = None).
Proof.
  unfold run, try_except, bind.
  pose proof (run_git_spec git ["pull"; "--depth"; "1"; "origin"; b] target_dir w)
    as Hpull.
  unfold run in Hpull. rewrite Hpull. clear Hpull.
  destruct ((git (git_log w) _ target_dir (files w)).1) as [o|err|].
  - intros [= <- <-]. by split.
  - cbn [is_TemplateError git_error].
    unfold rmtree, bind, get, put, raise. cbn [files].
    match goal with
    | |- context [match ?m !! target_dir with _ => _ end] =>
        destruct (m !! target_dir) as [[|?]|] eqn:Hdir
    end; intros [= <- <-]; (split; [done|]); try done.
    intros msg _ p Hp. by apply remove_tree_below.
  - intros [= <- <-]. by split.
Qed.

(** Every outcome of the fresh download: the commands issued are an
    initial segment of the full sequence, the whole sequence on success,
    and a pull that fails with a git error leaves nothing at or below
    the target directory. *)
Lemma fetch_git_repo_inv (target_dir : path) (meta : template_meta) (w : world)
      (r : result unit) (w' : world) (repo_url : string) :
  repository meta = Some repo_url →
  run (_fetch_git_repo git target_dir meta) w = (r, w') →
  ∃ l, git_log w' = git_log w ++ l ∧
       l `prefix_of` download_commands target_dir meta repo_url ∧
       (r = Ok tt → l = download_commands target_dir meta repo_url) ∧
       (∀ msg, r = Raise (TemplateError msg) →
               l = download_commands target_dir meta repo_url →
               ∀ p, target_dir `prefix_of` p → files w' !! p = None).
Proof.
  unfold _fetch_git_repo. intros -> Hrun. rewrite bind_lift_Ok in Hrun.
  apply bind_inv in Hrun as [(e & Hc & ->)|([] & w1 & H1 & Hrun)].
  { apply mkdir_each_log in Hc. exists []. rewrite app_nil_r.
    split; [done|]. split; [apply prefix_nil|]. split; [done|].
    intros msg _ Hl. unfold download_commands in Hl. discriminate. }
  apply mkdir_each_log in H1.
  apply bind_inv in Hrun as [(e & Hc & ->)|(o2 & w2 & H2 & Hrun)].
  { apply run_git_log in Hc. exists [(["init"], target_dir)].
    split; [chase_log|]. split; [is_prefix|]. split; [done|].
    intros msg _ Hl. unfold download_commands in Hl. discriminate. }
  apply run_git_log in H2.
  apply bind_inv in Hrun as [(e & Hc & ->)|(o3 & w3 & H3 & Hrun)].
  { apply run_git_log in Hc.
    exists [(["init"], target_dir);
            (["remote"; "add"; "origin"; repo_url], target_dir)].
    split; [chase_log|]. split; [is_prefix|]. split; [done|].
    intros msg _ Hl. unfold download_commands in Hl.
    destruct (truthy_str (sub_path meta)); discriminate. }
  apply run_git_log in H3.
  destruct (truthy_str (sub_path meta)) eqn:Hsub.
  - apply bind_inv in Hrun as [(e & Hc & ->)|([] & w4 & H4 & Hrun)].
    { set (l3 := [(["init"], target_dir);
                  (["remote"; "add"; "origin"; repo_url], target_dir);
                  (["config"; "core.sparseCheckout"; "true"], target_dir)]).
      assert (git_log w' = git_log w ++ l3) as Hlog.
      { apply bind_inv in Hc as [(e' & Hc & _)|(o & w4 & Hc & Hw)].
        - apply run_git_log in Hc. subst l3. chase_log.
        - apply run_git_log in Hc. apply write_text_log in Hw. subst l3. chase_log. }
      exists l3. split; [done|].
      split; [unfold download_commands; rewrite Hsub; by eexists|].
      split; [done|].
      intros msg _ Hl. unfold download_commands in Hl. rewrite Hsub in Hl.
      discriminate. }
    assert (git_log w4 =
            git_log w3 ++ [(["config"; "core.sparseCheckout"; "true"], target_dir)])
      as H4'.
    { apply bind_inv in H4 as [(e' & _ & [=])|(o & w5 & Hc & Hw)].
      apply run_git_log in Hc. apply write_text_log in Hw. chase_log. }
    apply guarded_pull_inv in Hrun as [H5 Hclean].
    exists (download_commands target_dir meta repo_url).
    unfold download_commands. rewrite Hsub.
    split; [chase_log|]. split; [done|]. split; [done|].
    intros msg Hr _. by apply (Hclean msg).
  - apply bind_inv in Hrun as [(e & [=] & _)|([] & w4 & [= <-] & Hrun)].
    apply guarded_pull_inv in Hrun as [H5 Hclean].
    exists (download_commands target_dir meta repo_url).
    unfold download_commands. rewrite Hsub.
    split; [chase_log|]. split; [done|]. split; [done|].
    intros msg Hr _. by apply (Hclean msg).
Qed.

(** The guarded body of [fetch_analysis_files]. *)
Lemma analysis_body_inv (temp_path : path) (repo_url branch : string)
      (w : world) (r : result (gmap string string)) (w' : world) :
  run (_run_git git ["init"] temp_path ;;;
       _run_git git ["remote"; "add"; "origin"; repo_url] temp_path ;;;
       _run_git git ["config"; "core.sparseCheckout"; "true"] temp_path ;;;
       write_text
         (path_join (path_join (path_join temp_path ".git") "info") "sparse-checkout")
         (String.concat "" (map (fun tf => tf +:+ nl) target_files)) ;;;
       _run_git git ["pull"; "--depth"; "1"; "origin"; branch] temp_path ;;;
       let* w := get in
       ret (read_targets temp_path w)) w = (r, w') →
  ∃ l, git_log w' = git_log w ++ l ∧
       l `prefix_of` analysis_log temp_path repo_url branch ∧
       (is_ok r = true →
        r = Ok (read_targets temp_path w') ∧
        l = analysis_log temp_path repo_url branch).
Proof.
  intros Hrun.
  apply bind_inv in Hrun as [(e & Hc & ->)|(o1 & w1 & H1 & Hrun)].
  { apply run_git_log in Hc. exists [(["init"], temp_path)].
    split; [chase_log|]. split; [is_prefix|done]. }
  apply run_git_log in H1.
  apply bind_inv in Hrun as [(e & Hc & ->)|(o2 & w2 & H2 & Hrun)].
  { apply run_git_log in Hc.
    exists [(["init"], temp_path);
            (["remote"; "add"; "origin"; repo_url], temp_path)].
    split; [chase_log|]. split; [is_prefix|done]. }
  apply run_git_log in H2.
  apply bind_inv in Hrun as [(e & Hc & ->)|(o3 & w3 & H3 & Hrun)].
  { apply run_git_log in Hc.
    exists [(["init"], temp_path);
            (["remote"; "add"; "origin"; repo_url], temp_path);
            (["config"; "core.sparseCheckout"; "true"], temp_path)].
    split; [chase_log|]. split; [is_prefix|done]. }
  apply run_git_log in H3.
  apply bind_inv in Hrun as [(e & Hc & ->)|([] & w4 & H4 & Hrun)].
  { apply write_text_log in Hc.
    exists [(["init"], temp_path);
            (["remote"; "add"; "origin"; repo_url], temp_path);
            (["config"; "core.sparseCheckout"; "true"], temp_path)].
    split; [chase_log|]. split; [is_prefix|done]. }
  apply write_text_log in H4.
  apply bind_inv in Hrun as [(e & Hc & ->)|(o5 & w5 & H5 & Hrun)].
  { apply run_git_log in Hc. exists (analysis_log temp_path repo_url branch).
    split; [unfold analysis_log, analysis_commands; cbn [map]; chase_log|].
    split; [done|done]. }
  apply run_git_log in H5.
  unfold run, bind, get, ret in Hrun. injection Hrun as <- <-.
  exists (analysis_log temp_path repo_url branch).
  split; [unfold analysis_log, analysis_commands; cbn [map]; chase_log|].
  by split.
Qed.

(** Every outcome of the ad-hoc fetch. *)
Lemma fetch_analysis_files_inv (temp_path : path) (repo_url branch : string)
      (w : world) (r : result (gmap string string)) (w' : world) :
  run (fetch_analysis_files git temp_path repo_url branch) w = (r, w') →
  ∃ results w2 l,
    r = Ok results ∧ w' = remove_tree temp_path w2 ∧
    git_log w2 = git_log w ++ l ∧
    ((results = read_targets temp_path w2 ∧
      l = analysis_log temp_path repo_url branch) ∨
     (results = ∅ ∧ l `prefix_of` analysis_log temp_path repo_url branch)).
Proof.
  unfold fetch_analysis_files. intros Hrun.
  apply bind_inv in Hrun as [(e & [=] & _)|([] & w1 & [= <-] & Hrun)].
  apply bind_inv in Hrun as [(e & Hc & ->)|(results & w2 & Hbody & Hrun)].
  { unfold run, try_except in Hc.
    destruct (bind _ _ _) as [[a|e'] wb] in Hc; discriminate. }
  unfold run, bind, modify, ret in Hrun. injection Hrun as <- <-.
  unfold run, try_except in Hbody.
  match type of Hbody with
  | context [match ?c ?w1 with _ => _ end] =>
      destruct (c w1) as [rb wb] eqn:Hb
  end.
  apply analysis_body_inv in Hb as (l & Hlog & Hpre & Hok).
  exists results, w2, l.
  destruct rb as [a|e]; injection Hbody as <- <-.
  - destruct Hok as [[= ->] ->]; [done|]. repeat split; try done. by left.
  - repeat split; try done. by right.
Qed.

End TemplateManagerMore.

(** X1.  A resolve of a key that the registry does not define, or whose
    entry is not of the git type, raises the corresponding
    [TemplateError] and has no effect: no directory is created and no
    git command is run. *)
Theorem resolve_rejects_without_effects
        (git : list (list string * path) → list string → path →
               gmap path node → git_exit * gmap path node)
        (cache_base : path) (registry : gmap string template_meta)
        (key : string) (force_update : bool) (w : world) :
  (registry !! key = None →
   run (get_template_path git cache_base registry key force_update) w =
   (Raise (TemplateError ("Template '" +:+ key +:+ "' not defined in registry.")),
    w)) ∧
  (∀ meta, registry !! key = Some meta → type_ meta ≠ Some "git" →
   run (get_template_path git cache_base registry key force_update) w =
   (Raise (TemplateError
             ("Unsupported template type: " +:+ default "None" (type_ meta))),
    w)).
Proof.
  split.
  - intros Hreg. unfold get_template_path, run. by rewrite Hreg.
  - intros meta Hreg Htype. unfold get_template_path, run. rewrite Hreg.
    by rewrite bool_decide_eq_false_2.
Qed.

Lemma resolve_rejects_without_effects_witness :
  run (get_template_path (git_sim demo_tree) demo_cache mixed_registry
         "no-such-template" true) fresh_world =
  (Raise (TemplateError "Template 'no-such-template' not defined in registry."),
   fresh_world) ∧
  run (get_template_path (git_sim demo_tree) demo_cache mixed_registry
         "archive" false) fresh_world =
  (Raise (TemplateError "Unsupported template type: zip"), fresh_world).
Proof.
  split.
  - apply (resolve_rejects_without_effects (git_sim demo_tree) demo_cache
             mixed_registry "no-such-template" true fresh_world). reflexivity.
  - destruct (resolve_rejects_without_effects (git_sim demo_tree) demo_cache
                mixed_registry "archive" false fresh_world) as [_ Htype].
    apply (Htype zip_meta); [reflexivity|discriminate].
Defined.

(** X2.  A resolve without [force_update] of a key whose cache directory
    exists runs no git command and changes nothing on disk; its outcome
    depends on the sub-path check alone, so a second resolve gives the
    same answer. *)
Theorem cache_hit_is_silent
        (git : list (list string * path) → list string → path →
               gmap path node → git_exit * gmap path node)
        (cache_base : path) (registry : gmap string template_meta)
        (key : string) (meta : template_meta) (w : world) :
  registry !! key = Some meta → type_ meta = Some "git" →
  path_exists (path_join cache_base key) w = true →
  let cache_path := path_join cache_base key in
  let target_path := path_join cache_path (default "" (sub_path meta)) in
  run (get_template_path git cache_base registry key false) w =
  (if truthy_str (sub_path meta) then
     if path_exists target_path w then Ok target_path
     else Raise (sub_path_error (default "" (sub_path meta)) key)
   else Ok cache_path,
   w).
Proof.
  intros Hreg Htype Hex cache_path target_path.
  rewrite (get_template_path_spec git cache_base registry key false meta w
             Hreg Htype).
  cbn zeta. fold cache_path.
  unfold ensure_cached, run, bind, get. fold cache_path in Hex. rewrite Hex.
  unfold ret. destruct (truthy_str (sub_path meta)); [|done].
  fold target_path. by destruct (path_exists target_path w).
Qed.

Lemma cache_hit_is_silent_witness :
  run (get_template_path (git_failing "init" demo_tree) demo_cache demo_registry
         "jeecg-demo" false) cached_world =
  (Ok [".template_cache"; "jeecg-demo"], cached_world).
Proof.
  apply (cache_hit_is_silent (git_failing "init" demo_tree) demo_cache
           demo_registry "jeecg-demo" demo_meta cached_world); reflexivity.
Defined.

(** X3.  Whatever happens during a fresh download, the git commands it
    has issued are an initial segment of: init, remote add, the
    sparse-checkout configuration when the entry has a sub-path, pull;
    each in the target directory.  A download that returns has issued
    all of them, so the sparse-checkout restriction is always declared
    before the pull. *)
Theorem fresh_download_commands
        (git : list (list string * path) → list string → path →
               gmap path node → git_exit * gmap path node)
        (target_dir : path) (meta : template_meta) (repo_url : string)
        (w : world) (r : result unit) (w' : world) :
  repository meta = Some repo_url →
  run (_fetch_git_repo git target_dir meta) w = (r, w') →
  ∃ l, git_log w' = git_log w ++ l ∧
       l `prefix_of` download_commands target_dir meta repo_url ∧
       (r = Ok tt → l = download_commands target_dir meta repo_url).
Proof.
  intros Hrepo Hrun.
  destruct (fetch_git_repo_inv git target_dir meta w r w' repo_url Hrepo Hrun)
    as (l & Hlog & Hpre & Hok & _).
  by exists l.
Qed.

Lemma fresh_download_commands_witness :
  let target_dir := [".template_cache"; "jeecg-demo-local"] in
  git_log (snd (run (_fetch_git_repo (git_sim demo_tree) target_dir demo_sub_meta)
                  fresh_world)) =
  [ (["init"], target_dir);
    (["remote"; "add"; "origin"; demo_url], target_dir);
    (["config"; "core.sparseCheckout"; "true"], target_dir);
    (["pull"; "--depth"; "1"; "origin"; "master"], target_dir) ].
Proof.
  intros target_dir.
  pose (out := run (_fetch_git_repo (git_sim demo_tree) target_dir demo_sub_meta)
                 fresh_world).
  destruct (fresh_download_commands (git_sim demo_tree) target_dir demo_sub_meta
              demo_url fresh_world (fst out) (snd out))
    as (l & Hlog & _ & Hall); [reflexivity|apply surjective_pairing|].
  rewrite Hall in Hlog by (vm_compute; reflexivity). exact Hlog.
Defined.

(** X4.  When a fresh download has reached the pull and ends in a git
    error, the target directory and everything below it are gone when
    the error reaches the caller. *)
Theorem failed_pull_removes_tree
        (git : list (list string * path) → list string → path →
               gmap path node → git_exit * gmap path node)
        (target_dir : path) (meta : template_meta) (repo_url : string)
        (w : world) (msg : string) (w' : world) :
  repository meta = Some repo_url →
  run (_fetch_git_repo git target_dir meta) w = (Raise (TemplateError msg), w') →
  git_log w' = git_log w ++ download_commands target_dir meta repo_url →
  ∀ p, target_dir `prefix_of` p → files w' !! p = None.
Proof.
  intros Hrepo Hrun Hlog.
  destruct (fetch_git_repo_inv git target_dir meta w _ w' repo_url Hrepo Hrun)
    as (l & Hlog' & _ & _ & Hclean).
  apply (Hclean msg); [done|].
  rewrite Hlog' in Hlog. by apply app_inv_head in Hlog.
Qed.

Lemma failed_pull_removes_tree_witness :
  let target_dir := [".template_cache"; "jeecg-demo-local"] in
  let w' := snd (run (_fetch_git_repo (git_failing "pull" demo_tree) target_dir
                        demo_sub_meta) fresh_world) in
  files w' !! target_dir = None ∧
  files w' !! (target_dir ++ [".git"; "info"; "sparse-checkout"]) = None.
Proof.
  intros target_dir w'.
  pose proof (failed_pull_removes_tree (git_failing "pull" demo_tree) target_dir
                demo_sub_meta demo_url fresh_world
                "Git command failed: pull --depth 1 origin master
Error: fatal: unable to proceed" w') as Hclean.
  split; apply Hclean; try reflexivity; by eexists.
Defined.


(** X5.  The ad-hoc fetch works in a disposable directory: on every path
    it returns, nothing at or below the temporary directory exists
    afterwards, and the git commands it has issued are an initial
    segment of init, remote add, sparse-checkout configuration and pull,
    every one of them run in the temporary directory. *)
Theorem adhoc_fetch_is_disposable
        (git : list (list string * path) → list string → path →
               gmap path node → git_exit * gmap path node)
        (temp_path : path) (repo_url branch : string)
        (w : world) (r : result (gmap string string)) (w' : world) :
  run (fetch_analysis_files git temp_path repo_url branch) w = (r, w') →
  (∀ p, temp_path `prefix_of` p → files w' !! p = None) ∧
  ∃ l, git_log w' = git_log w ++ l ∧
       l `prefix_of` analysis_log temp_path repo_url branch ∧
       Forall (fun c => c.2 = temp_path) l.
Proof.
  intros Hrun.
  apply fetch_analysis_files_inv in Hrun
    as (results & w2 & l & -> & -> & Hlog & Hcases).
  split; [intros p Hp; by apply remove_tree_below|].
  assert (l `prefix_of` analysis_log temp_path repo_url branch) as Hpre.
  { by destruct Hcases as [[_ ->]|[_ Hpre]]. }
  exists l. split; [done|]. split; [done|].
  destruct Hpre as [k Hk].
  assert (Forall (fun c : list string * path => c.2 = temp_path)
                 (analysis_log temp_path repo_url branch)) as Hall.
  { unfold analysis_log. apply Forall_fmap. by apply Forall_true. }
  rewrite Hk in Hall. by apply Forall_app in Hall as [Hall _].
Qed.

Lemma adhoc_fetch_is_disposable_witness :
  let out := run (fetch_analysis_files (git_sim demo_tree) ["tmp"; "scout"]
                    demo_url "HEAD") fresh_world in
  files (snd out) !! ["tmp"; "scout"] = None ∧
  files (snd out) !! ["tmp"; "scout"; ".git"; "info"] = None ∧
  Forall (fun c => c.2 = ["tmp"; "scout"]) (git_log (snd out)).
Proof.
  intros out.
  destruct (adhoc_fetch_is_disposable (git_sim demo_tree) ["tmp"; "scout"]
              demo_url "HEAD" fresh_world (fst out) (snd out))
    as (Hgone & l & Hlog & _ & Hcwd); [apply surjective_pairing|].
  split; [apply Hgone; by eexists|]. split; [apply Hgone; by eexists|].
  by rewrite Hlog.
Defined.



(** * Further properties of the scout *)

(** ** The ranking order *)

Lemma insert_desc_perm (x : RepoCandidate) (l : list RepoCandidate) :
  insert_desc x l ≡ₚ x :: l.
Proof.
  induction l as [|y l IH]; cbn; [done|].
  destruct (Z.ltb (match_score x) (match_score y)); [|done].
  rewrite IH. apply Permutation_swap.
Qed.

Lemma sort_desc_perm (l : list RepoCandidate) : sort_desc l ≡ₚ l.
Proof.
  induction l as [|x l IH]; cbn; [done|].
  change (foldr insert_desc [] l) with (sort_desc l).
  by rewrite insert_desc_perm, IH.
Qed.

Lemma insert_desc_sorted (x : RepoCandidate) (l : list RepoCandidate) :
  StronglySorted outranks l → StronglySorted outranks (insert_desc x l).
Proof.
  induction l as [|y l IH]; cbn; intros Hl.
  - by repeat constructor.
  - apply StronglySorted_inv in Hl as [Hl Hy].
    destruct (Z.ltb_spec (match_score x) (match_score y)) as [Hlt|Hge].
    + apply SSorted_cons; [by apply IH|].
      rewrite insert_desc_perm. constructor; [unfold outranks; lia|done].
    + apply SSorted_cons; [by apply SSorted_cons|].
      constructor; [done|].
      eapply Forall_impl; [exact Hy|]. unfold outranks. intros z Hz. lia.
Qed.

Lemma sort_desc_sorted (l : list RepoCandidate) :
  StronglySorted outranks (sort_desc l).
Proof.
  induction l as [|x l IH]; cbn; [constructor|].
  by apply insert_desc_sorted.
Qed.

Lemma insert_desc_stable (k : Z) (x : RepoCandidate) (l : list RepoCandidate) :
  filter (fun c => match_score c = k) (insert_desc x l) =
  filter (fun c => match_score c = k) (x :: l).
Proof.
  induction l as [|y l IH]; cbn [insert_desc]; [done|].
  destruct (Z.ltb_spec (match_score x) (match_score y)) as [Hlt|Hge]; [|done].
  rewrite (filter_cons _ y), IH, !filter_cons.
  destruct (decide (match_score y = k)), (decide (match_score x = k)); try done.
  lia.
Qed.

Lemma sort_desc_stable (k : Z) (l : list RepoCandidate) :
  filter (fun c => match_score c = k) (sort_desc l) =
  filter (fun c => match_score c = k) l.
Proof.
  induction l as [|x l IH]; cbn; [done|].
  change (foldr insert_desc [] l) with (sort_desc l).
  by rewrite insert_desc_stable, !filter_cons, IH.
Qed.

Lemma delete_sorted (i : nat) (l : list RepoCandidate) :
  StronglySorted outranks l → StronglySorted outranks (delete i l).
Proof.
  revert i. induction l as [|x l IH]; intros i Hl; [by destruct i|].
  apply StronglySorted_inv in Hl as [Hl Hx].
  destruct i as [|i]; cbn; [done|].
  apply SSorted_cons; [by apply IH|]. by apply Forall_delete.
Qed.

Lemma sort_desc_length (l : list RepoCandidate) :
  length (sort_desc l) = length l.
Proof. by rewrite sort_desc_perm. Qed.

(** ** The whole pipeline *)

Lemma mapM_total {A B} (f : A → result B) (g : A → B) (l : list A) :
  (∀ x, f x = Ok (g x)) → mapM f l = Ok (map g l).
Proof.
  intros Hf. induction l as [|x l IH]; cbn; [done|].
  by rewrite Hf, IH.
Qed.

Lemma omap_Forall2 {A B} (f : A → option B) (refs : list A) (l : list B) :
  Forall2 (fun r x => f r = Some x) refs l → omap f refs = l.
Proof. induction 1 as [|r x refs l Hr _ IH]; cbn; [done|]. by rewrite Hr, IH. Qed.

(** Reading the objects of a fresh store through all its references. *)
Lemma deref_all (l : list RepoCandidate) :
  Forall2 (fun r x => (map_seq 0 l : gmap nat RepoCandidate) !! r = Some x)
          (seq 0 (length l)) l.
Proof.
  apply Forall2_same_length_lookup. split; [by rewrite length_seq|].
  intros i r x Hr Hx. apply lookup_seq in Hr as [-> _].
  by rewrite lookup_map_seq_0.
Qed.

(** The same after the object at position [i] has been altered and its
    reference removed from the list. *)
Lemma deref_others (l : list RepoCandidate) (i : nat)
      (f : RepoCandidate → RepoCandidate) :
  (i < length l)%nat →
  Forall2 (fun r x =>
             alter f i (map_seq 0 l : gmap nat RepoCandidate) !! r = Some x)
          (delete i (seq 0 (length l))) (delete i l).
Proof.
  intros Hi. apply Forall2_same_length_lookup. split.
  { rewrite !length_delete; [by rewrite length_seq| |].
    - by apply lookup_lt_is_Some_2.
    - apply lookup_lt_is_Some_2. by rewrite length_seq. }
  intros j r x Hr Hx.
  destruct (decide (j < i)%nat) as [Hlt|Hge].
  - rewrite list_lookup_delete_lt in Hr by done.
    rewrite list_lookup_delete_lt in Hx by done.
    apply lookup_seq in Hr as [-> _].
    rewrite lookup_alter_ne by lia. by rewrite lookup_map_seq_0.
  - rewrite list_lookup_delete_ge in Hr by lia.
    rewrite list_lookup_delete_ge in Hx by lia.
    apply lookup_seq in Hr as [-> _].
    rewrite lookup_alter_ne by lia. by rewrite lookup_map_seq_0.
Qed.

Section Pipeline.

Variable getenv : string → option string.
Variable github_search : string → http_response.
Variable chat_completions : chat_request → http_response.
Variable json_loads : string → result json.
Variable py_str : json → string.
Variable coerce_str : json → option string.
Variable coerce_int : json → option Z.
Variable fetch_files : string → result (gmap string string).

Lemma analyze_eq (requirement : string) (c : RepoCandidate) :
  analyze fetch_files requirement c = Ok (scored fetch_files requirement c).
Proof. unfold analyze, scored, rbind. by rewrite analyze_match_eq. Qed.

Lemma search_phase_nonempty (requirement : string) :
  ∃ cands,
    search_phase github_search coerce_str coerce_int requirement = Ok cands ∧
    cands ≠ [].
Proof.
  unfold search_phase, rbind.
  destruct (search_real_returns github_search coerce_str coerce_int requirement)
    as [[|c l] Hl]; rewrite Hl; by eexists.
Qed.

(** The values behind the references that the adjudication returns,
    when it is run on a fresh store holding [results]. *)
Lemma adjudicated_values (requirement : string) (results : list RepoCandidate) :
  ∃ refs st',
    run (_evaluate_candidates_with_ai getenv chat_completions json_loads py_str
           requirement)
        {| objs := map_seq 0 results; candidates := seq 0 (length results) |}
    = (Ok refs, st') ∧
    (omap (fun r => objs st' !! r) refs = results ∨
     ∃ i c ai_reason,
       results !! i = Some c ∧
       omap (fun r => objs st' !! r) refs =
       prefix_reason ai_reason (add_bonus c) :: delete i results).
Proof.
  set (st := {| objs := map_seq 0 results; candidates := seq 0 (length results) |}).
  destruct (evaluate_cases getenv chat_completions json_loads py_str requirement st)
    as [Hrun|(i & sel & ai_reason & Hsel & Hrun)]; rewrite Hrun.
  - exists (candidates st), st. split; [done|]. left.
    apply omap_Forall2, deref_all.
  - eexists _, _. split; [done|]. right.
    cbn [candidates st] in Hsel. apply lookup_seq in Hsel as [Hsel Hi].
    cbn [Nat.add] in Hsel. subst sel.
    destruct (lookup_lt_is_Some_2 results i Hi) as [c Hc].
    exists i, c, ai_reason. split; [done|].
    subst st. cbn [promoted objs candidates].
    apply omap_Forall2. constructor.
    + by rewrite !lookup_alter_eq, lookup_map_seq_0, Hc.
    + rewrite alter_alter_eq. by apply deref_others.
Qed.

(** The pipeline in terms of its stages: the search phase, the scoring
    of every candidate, the sort, and one of the two outcomes of the
    adjudication. *)
Lemma search_and_analyze_inv (requirement : string) :
  ∃ cands,
    search_phase github_search coerce_str coerce_int requirement = Ok cands ∧
    cands ≠ [] ∧
    (search_and_analyze getenv github_search chat_completions json_loads py_str
       coerce_str coerce_int fetch_files requirement
     = Ok (ranked fetch_files requirement cands) ∨
     ∃ i c ai_reason,
       ranked fetch_files requirement cands !! i = Some c ∧
       search_and_analyze getenv github_search chat_completions json_loads py_str
         coerce_str coerce_int fetch_files requirement
       = Ok (prefix_reason ai_reason (add_bonus c)
               :: delete i (ranked fetch_files requirement cands))).
Proof.
  destruct (search_phase_nonempty requirement) as (cands & Hsearch & Hne).
  exists cands. split; [done|]. split; [done|].
  unfold search_and_analyze, rbind. rewrite Hsearch.
  rewrite (mapM_total _ (scored fetch_files requirement))
    by apply analyze_eq.
  fold (ranked fetch_files requirement cands).
  remember (ranked fetch_files requirement cands) as results eqn:Hres.
  assert (length results = length cands) as Hlen.
  { subst results. unfold ranked. by rewrite sort_desc_length, length_map. }
  destruct results as [|c0 rest].
  { exfalso. apply Hne. by apply nil_length_inv. }
  destruct (adjudicated_values requirement (c0 :: rest))
    as (refs & st' & Hrun & Hvals).
  rewrite Hrun.
  destruct Hvals as [Hvals|(i & c & ai_reason & Hc & Hvals)]; rewrite Hvals.
  - by left.
  - right. by exists i, c, ai_reason.
Qed.

(** Without adjudication the pipeline returns the ranking itself. *)
Lemma search_and_analyze_unadjudicated (requirement : string)
      (cands : list RepoCandidate) :
  search_phase github_search coerce_str coerce_int requirement = Ok cands →
  (∀ st, no_adjudication getenv chat_completions json_loads requirement st) →
  search_and_analyze getenv github_search chat_completions json_loads py_str
    coerce_str coerce_int fetch_files requirement
  = Ok (ranked fetch_files requirement cands).
Proof.
  intros Hsearch Hna. unfold search_and_analyze, rbind. rewrite Hsearch.
  rewrite (mapM_total _ (scored fetch_files requirement))
    by apply analyze_eq.
  fold (ranked fetch_files requirement cands).
  destruct (ranked fetch_files requirement cands) as [|c0 rest]; [done|].
  rewrite (evaluate_noop getenv chat_completions json_loads py_str requirement _
             (Hna _)).
  f_equal. apply omap_Forall2. apply (deref_all (c0 :: rest)).
Qed.

End Pipeline.

(** X7.  The ranking pipeline always returns, and never with an empty
    list: it returns one candidate for each candidate that the search
    phase produced, and the search phase produces at least one. *)
Theorem ranking_always_returns
        (getenv : string → option string)
        (github_search : string → http_response)
        (chat_completions : chat_request → http_response)
        (json_loads : string → result json) (py_str : json → string)
        (coerce_str : json → option string) (coerce_int : json → option Z)
        (fetch_files : string → result (gmap string string))
        (requirement : string) :
  ∃ cands l,
    search_phase github_search coerce_str coerce_int requirement = Ok cands ∧
    search_and_analyze getenv github_search chat_completions json_loads py_str
      coerce_str coerce_int fetch_files requirement = Ok l ∧
    l ≠ [] ∧ length l = length cands.
Proof.
  destruct (search_and_analyze_inv getenv github_search chat_completions
              json_loads py_str coerce_str coerce_int fetch_files requirement)
    as (cands & Hsearch & Hne & Hout).
  assert (length (ranked fetch_files requirement cands) = length cands) as Hlen.
  { unfold ranked. by rewrite sort_desc_length, length_map. }
  exists cands.
  destruct Hout as [Hout|(i & c & ai_reason & Hc & Hout)]; eexists;
    (split; [done|]); (split; [exact Hout|]).
  - split; [|done]. intros Hnil. rewrite Hnil in Hlen.
    apply Hne. by apply nil_length_inv.
  - split; [done|]. cbn [length].
    rewrite length_delete by (by eexists).
    apply lookup_lt_Some in Hc. lia.
Qed.

(** X8.  When no API credential is configured, the pipeline returns the
    scored candidates of the search phase in descending score order:
    the output is a rearrangement of the scored candidates, every
    candidate scores at least as much as every later one, and candidates
    with equal scores keep the order in which the search returned them. *)
Theorem ranking_without_credential
        (getenv : string → option string)
        (github_search : string → http_response)
        (chat_completions : chat_request → http_response)
        (json_loads : string → result json) (py_str : json → string)
        (coerce_str : json → option string) (coerce_int : json → option Z)
        (fetch_files : string → result (gmap string string))
        (requirement : string) (cands : list RepoCandidate) :
  truthy_str (getenv "GEMINI_API_KEY") = false →
  search_phase github_search coerce_str coerce_int requirement = Ok cands →
  ∃ l,
    search_and_analyze getenv github_search chat_completions json_loads py_str
      coerce_str coerce_int fetch_files requirement = Ok l ∧
    l ≡ₚ map (scored fetch_files requirement) cands ∧
    StronglySorted outranks l ∧
    (∀ k, filter (fun c => match_score c = k) l =
          filter (fun c => match_score c = k)
                 (map (scored fetch_files requirement) cands)).
Proof.
  intros Hkey Hsearch. exists (ranked fetch_files requirement cands).
  split.
  - apply search_and_analyze_unadjudicated; [done|].
    intros st. by apply na_no_credential.
  - unfold ranked. split; [apply sort_desc_perm|].
    split; [apply sort_desc_sorted|]. intros k. apply sort_desc_stable.
Qed.

(** X9.  In every case the output of the pipeline is the ranking of the
    scored candidates, or that ranking with one candidate moved to the
    front, its score raised by 10 and its rationale prefixed with the
    selection tag; so whatever the reasoning service answers, the
    candidates after the first are in descending score order. *)
Theorem ranking_after_adjudication
        (getenv : string → option string)
        (github_search : string → http_response)
        (chat_completions : chat_request → http_response)
        (json_loads : string → result json) (py_str : json → string)
        (coerce_str : json → option string) (coerce_int : json → option Z)
        (fetch_files : string → result (gmap string string))
        (requirement : string) :
  ∃ cands l,
    search_phase github_search coerce_str coerce_int requirement = Ok cands ∧
    search_and_analyze getenv github_search chat_completions json_loads py_str
      coerce_str coerce_int fetch_files requirement = Ok l ∧
    (l = ranked fetch_files requirement cands ∨
     ∃ i c ai_reason,
       ranked fetch_files requirement cands !! i = Some c ∧
       l = prefix_reason ai_reason (add_bonus c)
             :: delete i (ranked fetch_files requirement cands)) ∧
    StronglySorted outranks (tail l).
Proof.
  destruct (search_and_analyze_inv getenv github_search chat_completions
              json_loads py_str coerce_str coerce_int fetch_files requirement)
    as (cands & Hsearch & Hne & Hout).
  pose proof (sort_desc_sorted (map (scored fetch_files requirement) cands))
    as Hsorted. fold (ranked fetch_files requirement cands) in Hsorted.
  exists cands.
  destruct Hout as [Hout|(i & c & ai_reason & Hc & Hout)]; eexists;
    (split; [done|]); (split; [exact Hout|]).
  - split; [by left|].
    destruct (ranked fetch_files requirement cands) as [|c0 rest]; [constructor|].
    by apply StronglySorted_inv in Hsorted as [Hrest _].
  - split; [right; by exists i, c, ai_reason|].
    cbn [tail]. by apply delete_sorted.
Qed.

Lemma ranking_without_credential_witness :
  ∃ l,
    search_and_analyze env_unset github_no_match chat_fenced
      (loads_decision (JInt 0) "first") py_str_none strict_str strict_int
      fetch_nothing "jeecg module for demo" = Ok l ∧
    l ≡ₚ map (scored fetch_nothing "jeecg module for demo")
             (_mock_search_github "jeecg module for demo") ∧
    StronglySorted outranks l ∧
    (∀ k, filter (fun c => match_score c = k) l =
          filter (fun c => match_score c = k)
                 (map (scored fetch_nothing "jeecg module for demo")
                      (_mock_search_github "jeecg module for demo"))).
Proof.
  apply (ranking_without_credential env_unset github_no_match chat_fenced
           (loads_decision (JInt 0) "first") py_str_none strict_str strict_int
           fetch_nothing "jeecg module for demo"
           (_mock_search_github "jeecg module for demo")); reflexivity.
Defined.

(** ** The scorer *)

Lemma deep_read_exact (fetch_files : string → result (gmap string string))
      (candidate : RepoCandidate) (st : Z * string) :
  ∃ tail,
    run (deep_read fetch_files candidate) st =
    (Ok tt,
     (st.1 + (if (Z.leb 60 st.1 && starter_confirmed (fetch_files (url candidate)))%bool
              then 20 else 0),
      st.2 +:+ tail)).
Proof.
  destruct st as [score reason].
  unfold deep_read, starter_confirmed, run, bind, get, try_except, lift.
  cbn [fst snd].
  destruct (Z.leb 60 score); cbn [andb];
    [|exists ""; by rewrite append_empty_r, Z.add_0_r].
  destruct (fetch_files (url candidate)) as [files|e];
    [|exists ""; cbn; by rewrite append_empty_r, Z.add_0_r].
  destruct (files !! "pom.xml") as [pom|];
    [destruct (str_in "jeecg-boot-starter" pom);
     destruct (str_in "mybatis-plus" pom)|];
    destruct (files !! "package.json"); cbn;
    rewrite ?append_assoc, ?Z.add_0_r;
    try (eexists; reflexivity).
  exists "". by rewrite append_empty_r.
Qed.

(** X10.  The deep read never lowers a score and never rewrites a
    rationale: the returned score is the score of the rules, plus 20
    exactly when that score is at least 60 and the fetched [pom.xml]
    names the Jeecg starter, and the returned rationale is the rationale
    of the rules with text appended. *)
Theorem deep_read_effect
        (fetch_files : string → result (gmap string string))
        (candidate : RepoCandidate) (requirement : string) :
  let before := heuristic_result candidate requirement in
  ∃ tail,
    _analyze_match fetch_files candidate requirement =
    Ok (before.1 +
        (if (Z.leb 60 before.1 &&
             starter_confirmed (fetch_files (url candidate)))%bool
         then 20 else 0),
        before.2 +:+ tail).
Proof.
  intros before. subst before.
  destruct (deep_read_exact fetch_files candidate
              (heuristic_result candidate requirement)) as [tail Hrun].
  exists tail. by rewrite analyze_match_eq, Hrun.
Qed.

Lemma keyword_score_values (candidate : RepoCandidate) (requirement : string) :
  (keyword_result candidate requirement).1 ∈ [50; 80; 40; 90; 120].
Proof.
  unfold keyword_result, keyword_rules, run, bind.
  destruct (_ && _)%bool; destruct (_ && _)%bool; try destruct (str_in "sdk" _);
    cbn; set_solver.
Qed.

(** X11.  Every score that the scorer returns lies between 30 and 140. *)
Theorem score_bounds
        (fetch_files : string → result (gmap string string))
        (candidate : RepoCandidate) (requirement : string) :
  ∃ score reason,
    _analyze_match fetch_files candidate requirement = Ok (score, reason) ∧
    30 ≤ score ≤ 140.
Proof.
  destruct (deep_read_effect fetch_files candidate requirement) as [tail Hrun].
  cbn zeta in Hrun. eexists _, _. split; [exact Hrun|].
  assert (30 ≤ (heuristic_result candidate requirement).1 ≤ 120) as Hh.
  { rewrite heuristic_result_eq. cbn zeta.
    pose proof (keyword_score_values candidate requirement) as Hk.
    assert (40 ≤ (keyword_result candidate requirement).1 ≤ 120) as Hk'.
    { rewrite !elem_of_cons in Hk.
      destruct Hk as [Hk|[Hk|[Hk|[Hk|[Hk|Hk]]]]];
        [lia..|by apply elem_of_nil in Hk]. }
    destruct (str_in "system" _ && _)%bool; cbn [fst]; lia. }
  destruct (_ && _)%bool; lia.
Qed.

(** ** The search phase *)

Lemma mapM_Forall2 {A B} (f : A → result B) (l : list A) (l' : list B) :
  Forall2 (fun x y => f x = Ok y) l l' → mapM f l = Ok l'.
Proof. induction 1 as [|x y l l' Hx _ IH]; cbn; [done|]. by rewrite Hx, IH. Qed.

Lemma mapM_raises {A B} (f : A → result B) (l : list A) (x : A) (e : exn) :
  x ∈ l → f x = Raise e → ∃ e', mapM f l = Raise e'.
Proof.
  intros Hin Hx. induction l as [|y l IH]; [by apply elem_of_nil in Hin|].
  cbn. destruct (f y) as [b|e1] eqn:Hy; [|by eexists].
  apply elem_of_cons in Hin as [->|Hin]; [congruence|].
  destruct (IH Hin) as [e' ->]. by eexists.
Qed.

(** X12.  The real search converts the items of a 200 response all or
    nothing.  When every item converts, the result holds one candidate
    per item in the order of the response.  When a single item does not
    convert (it is not an object, or a field fails validation), the
    result is empty, whatever the other items are, and the search phase
    falls back to the built-in list. *)
Theorem search_conversion
        (github_search : string → http_response)
        (coerce_str : json → option string) (coerce_int : json → option Z)
        (query : string) (data items_value : json) (items : list json) :
  github_search (query +:+ " language:java") = HttpResponse 200 (Ok data) →
  dict_get_default data "items" (JArr []) = Ok items_value →
  iter items_value = Ok items →
  (∀ l, Forall2 (fun it c => candidate_of_item coerce_str coerce_int it = Ok c)
                items l →
        _search_github_real github_search coerce_str coerce_int query = Ok l) ∧
  (∀ it e, it ∈ items → candidate_of_item coerce_str coerce_int it = Raise e →
           _search_github_real github_search coerce_str coerce_int query = Ok [] ∧
           search_phase github_search coerce_str coerce_int query
           = Ok (_mock_search_github query)).
Proof.
  intros Hs Hv Hitems. split.
  - intros l Hl. unfold _search_github_real, rcatch, rbind.
    rewrite Hs. cbn. rewrite Hv, Hitems. by rewrite (mapM_Forall2 _ _ _ Hl).
  - intros it e Hin Hit.
    assert (_search_github_real github_search coerce_str coerce_int query = Ok [])
      as Hreal.
    { unfold _search_github_real, rcatch, rbind.
      rewrite Hs. cbn. rewrite Hv, Hitems.
      by destruct (mapM_raises _ _ _ _ Hin Hit) as [e' ->]. }
    split; [done|]. unfold search_phase, rbind. by rewrite Hreal.
Qed.

Lemma search_conversion_witness :
  _search_github_real github_two strict_str strict_int "payment" =
    Ok [ {| name := "pay-a"; url := "https://example.org/a.git";
            description := "No description provided"; stars := 9;
            match_score := 0; analysis_reason := "" |};
         {| name := "pay-b"; url := "https://example.org/b.git";
            description := "No description provided"; stars := 4;
            match_score := 0; analysis_reason := "" |} ] ∧
  search_phase github_one_bad strict_str strict_int "payment" =
    Ok (_mock_search_github "payment").
Proof.
  split.
  - eapply (search_conversion github_two strict_str strict_int "payment");
      [reflexivity..|].
    repeat constructor.
  - eapply (search_conversion github_one_bad strict_str strict_int "payment"
              _ _ _ eq_refl eq_refl eq_refl);
      [apply list_elem_of_further, list_elem_of_here|reflexivity].
Defined.

(** ** The fallback ranking *)

Lemma scored_score (fetch_files : string → result (gmap string string))
      (requirement : string) (c : RepoCandidate) :
  match_score (scored fetch_files requirement c) =
  (heuristic_result c requirement).1 +
  (if (Z.leb 60 (heuristic_result c requirement).1 &&
       starter_confirmed (fetch_files (url c)))%bool then 20 else 0).
Proof.
  unfold scored.
  destruct (deep_read_exact fetch_files c (heuristic_result c requirement))
    as [tail Hrun].
  by rewrite Hrun.
Qed.

Lemma heuristic_jeecg_demo (requirement : string) :
  str_in "jeecg" (lower requirement) = true →
  heuristic_result jeecg_demo requirement =
  (80, "High affinity: Jeecg module pattern detected.").
Proof.
  intros Hj. unfold heuristic_result, heuristic_rules, keyword_rules, penalty_rule,
    run, bind. cbn zeta. rewrite Hj.
  by destruct (str_in "stripe" (lower requirement)).
Qed.

Lemma heuristic_jeepay (requirement : string) :
  (heuristic_result jeepay requirement).1 = 40.
Proof.
  unfold heuristic_result, heuristic_rules, keyword_rules, penalty_rule,
    run, bind. cbn zeta.
  by destruct (str_in "jeecg" (lower requirement)),
              (str_in "stripe" (lower requirement)).
Qed.

Lemma heuristic_stripe_sdk (requirement : string) :
  (heuristic_result stripe_sdk requirement).1 ≤ 50.
Proof.
  unfold heuristic_result, heuristic_rules, keyword_rules, penalty_rule,
    run, bind. cbn zeta.
  by destruct (str_in "jeecg" (lower requirement)),
              (str_in "stripe" (lower requirement)).
Qed.

(** An element that outranks all others is first after the sort. *)
Lemma sort_desc_head (x : RepoCandidate) (l : list RepoCandidate) :
  Forall (outranks x) l → sort_desc (x :: l) = x :: sort_desc l.
Proof.
  intros Hl. cbn. change (foldr insert_desc [] l) with (sort_desc l).
  rewrite <- (sort_desc_perm l) in Hl.
  destruct (sort_desc l) as [|y r]; [done|]. cbn.
  apply Forall_cons in Hl as [Hy _]. unfold outranks in Hy.
  by destruct (Z.ltb_spec (match_score x) (match_score y)); [lia|].
Qed.

(** X13.  When the requirement mentions "jeecg", the primary search
    fails or finds nothing, and no API credential is configured, the
    pipeline returns the built-in Jeecg demo module first, with score 80,
    or 100 after a confirming deep read; the two other built-in
    candidates follow with scores of at most 50. *)
Theorem jeecg_requirement_ranks_demo_first
        (getenv : string → option string)
        (github_search : string → http_response)
        (chat_completions : chat_request → http_response)
        (json_loads : string → result json) (py_str : json → string)
        (coerce_str : json → option string) (coerce_int : json → option Z)
        (fetch_files : string → result (gmap string string))
        (requirement : string) :
  str_in "jeecg" (lower requirement) = true →
  search_failed github_search requirement →
  truthy_str (getenv "GEMINI_API_KEY") = false →
  ∃ c rest,
    search_and_analyze getenv github_search chat_completions json_loads py_str
      coerce_str coerce_int fetch_files requirement = Ok (c :: rest) ∧
    name c = "jeecg-boot-module-demo" ∧
    (match_score c = 80 ∨ match_score c = 100) ∧
    length rest = 2%nat ∧
    Forall (fun d => match_score d ≤ 50) rest.
Proof.
  intros Hj Hfail Hkey.
  assert (search_phase github_search coerce_str coerce_int requirement
          = Ok (_mock_search_github requirement)) as Hsearch.
  { unfold search_phase, rbind. by rewrite (search_real_failed _ _ _ _ Hfail). }
  rewrite (search_and_analyze_unadjudicated getenv github_search chat_completions
             json_loads py_str coerce_str coerce_int fetch_files requirement
             _ Hsearch)
    by (intros st; by apply na_no_credential).
  unfold ranked.
  change (_mock_search_github requirement) with [jeecg_demo; jeepay; stripe_sdk].
  cbn [map].
  set (sj := scored fetch_files requirement jeecg_demo).
  set (sp := scored fetch_files requirement jeepay).
  set (ss := scored fetch_files requirement stripe_sdk).
  assert (match_score sj = 80 ∨ match_score sj = 100) as Hsj.
  { subst sj. rewrite scored_score, heuristic_jeecg_demo by done. cbn [fst].
    destruct (_ && _)%bool; auto. }
  assert (match_score sp = 40) as Hsp.
  { subst sp. rewrite scored_score. pose proof (heuristic_jeepay requirement) as H.
    rewrite H. done. }
  assert (match_score ss ≤ 50) as Hss.
  { subst ss. rewrite scored_score.
    pose proof (heuristic_stripe_sdk requirement) as H.
    destruct (Z.leb_spec 60 (heuristic_result stripe_sdk requirement).1);
      cbn [andb]; lia. }
  rewrite sort_desc_head
    by (repeat constructor; unfold outranks; destruct Hsj; lia).
  exists sj, (sort_desc [sp; ss]).
  split; [done|]. split; [done|]. split; [done|].
  split; [by rewrite sort_desc_length|].
  rewrite sort_desc_perm. repeat constructor; lia.
Qed.

Lemma jeecg_requirement_ranks_demo_first_witness :
  ∃ c rest,
    search_and_analyze env_unset github_no_match chat_fenced
      (loads_decision (JInt 0) "first") py_str_none strict_str strict_int
      fetch_jeecg_pom "Jeecg module for demo" = Ok (c :: rest) ∧
    name c = "jeecg-boot-module-demo" ∧
    (match_score c = 80 ∨ match_score c = 100) ∧
    length rest = 2%nat ∧
    Forall (fun d => match_score d ≤ 50) rest.
Proof.
  apply (jeecg_requirement_ranks_demo_first env_unset github_no_match chat_fenced
           (loads_decision (JInt 0) "first") py_str_none strict_str strict_int
           fetch_jeecg_pom "Jeecg module for demo");
    [reflexivity| |reflexivity].
  apply (sf_no_items _ _ (JObj [("total_count", JInt 0); ("items", JArr [])]));
    reflexivity.
Defined.

(** ** The adjudicator on unusable and on unusual answers *)

Section AdjudicatorMore.

Variable getenv : string → option string.
Variable chat_completions : chat_request → http_response.
Variable json_loads : string → result json.
Variable py_str : json → string.

Lemma promote_not_an_index (idx ai_reason : json) (st : scout_state) :
  not_an_index idx →
  ∃ r, run (promote_selected py_str idx ai_reason) st = (r, st).
Proof.
  destruct idx as [|b|z|q|s|l|kvs]; try done; intros _;
    try (eexists; reflexivity).
  unfold promote_selected, run, bind, get, lift.
  destruct (in_range (JFloat q) (length (candidates st))) as [[|]|e];
    eexists; reflexivity.
Qed.

Lemma parse_unchanged (data : json) (st : scout_state) :
  (∃ r, run (bind (lift (message_content data)) (fun content =>
             bind (lift (as_str content)) (fun text_resp =>
             bind (lift (json_loads (strip_fences text_resp))) (fun decision =>
             bind (lift (dict_get decision "selected_index")) (fun idx =>
             bind (lift (dict_get_default decision "reasoning"
                           (JStr "No reason provided."))) (fun ai_reason =>
             promote_selected py_str idx ai_reason)))))) st = (r, st)) →
  ∃ r, run (parse_and_promote json_loads py_str data) st = (r, st).
Proof. intros H. unfold parse_and_promote. by apply try_except_pass. Qed.

(** A parse step that leaves the state alone makes the whole
    adjudication a no-op. *)
Lemma evaluate_parse_unchanged (requirement : string) (st : scout_state)
      (data : json) :
  chat_completions
    (build_chat_request getenv (getenv "GEMINI_API_KEY") requirement st)
  = HttpResponse 200 (Ok data) →
  (∃ r, run (parse_and_promote json_loads py_str data) st = (r, st)) →
  run (_evaluate_candidates_with_ai getenv chat_completions json_loads py_str
         requirement) st = (Ok (candidates st), st).
Proof.
  intros Hchat [r Hr]. unfold _evaluate_candidates_with_ai.
  destruct (truthy_str (getenv "GEMINI_API_KEY")); cbn [negb]; [|done].
  unfold run, bind, get, try_except in *. rewrite Hchat. cbn.
  unfold lift. rewrite Hr. by destruct r.
Qed.

Lemma evaluate_unusable (requirement : string) (st : scout_state) :
  unusable_answer getenv chat_completions json_loads requirement st →
  run (_evaluate_candidates_with_ai getenv chat_completions json_loads py_str
         requirement) st = (Ok (candidates st), st).
Proof.
  intros [e Hchat|data e Hchat Hc|data content e Hchat Hc Ht
          |data text e Hchat Hc Hl|data text decision e Hchat Hc Hl Hd
          |data text decision idx Hchat Hc Hl Hd Hidx].
  - unfold _evaluate_candidates_with_ai.
    destruct (truthy_str (getenv "GEMINI_API_KEY")); cbn [negb]; [|done].
    unfold run, bind, get, try_except. by rewrite Hchat.
  - apply (evaluate_parse_unchanged _ _ data Hchat). apply parse_unchanged.
    rewrite Hc, bind_lift_Raise. by eexists.
  - apply (evaluate_parse_unchanged _ _ data Hchat). apply parse_unchanged.
    rewrite Hc, bind_lift_Ok, Ht, bind_lift_Raise. by eexists.
  - apply (evaluate_parse_unchanged _ _ data Hchat). apply parse_unchanged.
    rewrite Hc, bind_lift_Ok. cbn [as_str].
    rewrite bind_lift_Ok, Hl, bind_lift_Raise. by eexists.
  - apply (evaluate_parse_unchanged _ _ data Hchat). apply parse_unchanged.
    rewrite Hc, bind_lift_Ok. cbn [as_str].
    rewrite bind_lift_Ok, Hl, bind_lift_Ok, Hd, bind_lift_Raise. by eexists.
  - apply (evaluate_parse_unchanged _ _ data Hchat). apply parse_unchanged.
    rewrite Hc, bind_lift_Ok. cbn [as_str].
    rewrite bind_lift_Ok, Hl, bind_lift_Ok, Hd, bind_lift_Ok.
    destruct (dict_get_default decision "reasoning" (JStr "No reason provided."))
      as [ai_reason|e]; [rewrite bind_lift_Ok|rewrite bind_lift_Raise; by eexists].
    by apply promote_not_an_index.
Qed.

(** A selected index that is a JSON boolean: Python takes [True] for 1
    and [False] for 0. *)
Lemma evaluate_bool_index (requirement : string) (st : scout_state)
      (data : json) (text : string) (decision ai_reason : json) (b : bool) :
  truthy_str (getenv "GEMINI_API_KEY") = true →
  chat_completions
    (build_chat_request getenv (getenv "GEMINI_API_KEY") requirement st)
    = HttpResponse 200 (Ok data) →
  message_content data = Ok (JStr text) →
  json_loads (strip_fences text) = Ok decision →
  dict_get decision "selected_index" = Ok (JBool b) →
  dict_get_default decision "reasoning" (JStr "No reason provided.") = Ok ai_reason →
  let i := if b then 1%nat else 0%nat in
  (i < length (candidates st))%nat →
  ∃ sel, candidates st !! i = Some sel ∧
         run (_evaluate_candidates_with_ai getenv chat_completions json_loads
                py_str requirement) st =
         (Ok (sel :: delete i (candidates st)),
          promoted i sel (format_value py_str ai_reason) st).
Proof.
  intros Hkey Hchat Hcontent Hloads Hidx Hreason i Hi.
  destruct (promote_selected_index py_str (JBool b) ai_reason
              (if b then 1 else 0) st)
    as (sel & Hsel & Hrun); try done.
  { cbn. f_equal. apply Z.ltb_lt. subst i. destruct b; lia. }
  { subst i. destruct b; lia. }
  replace (Z.to_nat (if b then 1 else 0)) with i in * by (subst i; by destruct b).
  exists sel. split; [done|].
  unfold _evaluate_candidates_with_ai. rewrite Hkey. cbn [negb].
  unfold run, bind, get, try_except in *. rewrite Hchat. cbn.
  unfold parse_and_promote, try_except, bind, lift.
  rewrite Hcontent. cbn. rewrite Hloads, Hidx, Hreason.
  by rewrite Hrun.
Qed.

End AdjudicatorMore.

(** X14.  A 200 response that carries no usable decision leaves the
    candidate list and every candidate as they were: a body that is not
    JSON, a completion without message content, content that is not
    text or does not parse, a parsed value that is not an object, and a
    [selected_index] that is a string, a float, an array or an object
    are all absorbed. *)
Theorem unusable_answer_is_ignored
        (getenv : string → option string)
        (chat_completions : chat_request → http_response)
        (json_loads : string → result json) (py_str : json → string)
        (requirement : string) (st : scout_state) :
  unusable_answer getenv chat_completions json_loads requirement st →
  run (_evaluate_candidates_with_ai getenv chat_completions json_loads py_str
         requirement) st = (Ok (candidates st), st).
Proof. apply evaluate_unusable. Qed.

Lemma unusable_answer_is_ignored_witness :
  run (_evaluate_candidates_with_ai env_with_key chat_prose
         (loads_decision (JInt 1) "second") py_str_none "payment module")
      ranked_ABC = (Ok [0; 1; 2]%nat, ranked_ABC) ∧
  run (_evaluate_candidates_with_ai env_with_key chat_fenced
         (loads_decision (JStr "1") "second") py_str_none "payment module")
      ranked_ABC = (Ok [0; 1; 2]%nat, ranked_ABC).
Proof.
  split.
  - apply (unusable_answer_is_ignored env_with_key chat_prose
             (loads_decision (JInt 1) "second") py_str_none "payment module"
             ranked_ABC).
    apply (ua_parse _ _ _ _ _ (completion "I would pick the second one.")
             "I would pick the second one." JSONDecodeError); reflexivity.
  - apply (unusable_answer_is_ignored env_with_key chat_fenced
             (loads_decision (JStr "1") "second") py_str_none "payment module"
             ranked_ABC).
    apply (ua_index _ _ _ _ _ (completion "```json DECISION ```")
             "```json DECISION ```"
             (JObj [("selected_index", JStr "1"); ("reasoning", JStr "second")])
             (JStr "1")); first [reflexivity|exact I].
Defined.

(** X15.  A decision whose [selected_index] is the JSON boolean [true]
    is acted on as index 1, and [false] as index 0: the candidate at that
    position is promoted exactly as for the integer. *)
Theorem boolean_index_is_an_index
        (getenv : string → option string)
        (chat_completions : chat_request → http_response)
        (json_loads : string → result json) (py_str : json → string)
        (requirement : string) (st : scout_state)
        (data : json) (text : string) (decision ai_reason : json) (b : bool) :
  truthy_str (getenv "GEMINI_API_KEY") = true →
  chat_completions
    (build_chat_request getenv (getenv "GEMINI_API_KEY") requirement st)
    = HttpResponse 200 (Ok data) →
  message_content data = Ok (JStr text) →
  json_loads (strip_fences text) = Ok decision →
  dict_get decision "selected_index" = Ok (JBool b) →
  dict_get_default decision "reasoning" (JStr "No reason provided.") = Ok ai_reason →
  let i := if b then 1%nat else 0%nat in
  (i < length (candidates st))%nat →
  ∃ sel, candidates st !! i = Some sel ∧
         run (_evaluate_candidates_with_ai getenv chat_completions json_loads
                py_str requirement) st =
         (Ok (sel :: delete i (candidates st)),
          promoted i sel (format_value py_str ai_reason) st).
Proof. apply evaluate_bool_index. Qed.

Lemma boolean_index_is_an_index_witness :
  ∃ sel, candidates ranked_ABC !! 1%nat = Some sel ∧
         run (_evaluate_candidates_with_ai env_with_key chat_fenced
                (loads_decision (JBool true) "second") py_str_none
                "payment module") ranked_ABC =
         (Ok (sel :: delete 1%nat (candidates ranked_ABC)),
          promoted 1 sel "second" ranked_ABC).
Proof.
  apply (boolean_index_is_an_index env_with_key chat_fenced
           (loads_decision (JBool true) "second") py_str_none "payment module"
           ranked_ABC (completion "```json DECISION ```") "```json DECISION ```"
           (JObj [("selected_index", JBool true); ("reasoning", JStr "second")])
           (JStr "second") true); try reflexivity.
  cbn. lia.
Defined.

(** * Properties of the construction of the template manager *)

Lemma key_eq_str_r (x : json) (k : string) :
  key_eq x (JStr k) = true ↔ x = JStr k.
Proof.
  destruct x as [|b|z|q|s|l|kvs]; cbn; try (split; [done|discriminate]).
  rewrite bool_decide_eq_true. split; congruence.
Qed.

Lemma key_eq_str_l (x : json) (k : string) :
  key_eq (JStr k) x = true ↔ x = JStr k.
Proof.
  destruct x as [|b|z|q|s|l|kvs]; cbn; try (split; [done|discriminate]).
  rewrite bool_decide_eq_true. split; congruence.
Qed.

(** Reading a string key after a store. *)
Lemma dict_find_set (k : string) (b v : json) (d : list (json * json)) :
  dict_find (JStr k) (dict_set b v d) =
  if key_eq b (JStr k) then Some v else dict_find (JStr k) d.
Proof.
  induction d as [|[k' v'] d IH]; cbn; [done|].
  destruct (key_eq k' b) eqn:Hb; cbn.
  - destruct (key_eq k' (JStr k)) eqn:Hk.
    + apply key_eq_str_r in Hk as ->. apply key_eq_str_l in Hb as ->.
      cbn. by rewrite bool_decide_eq_true_2.
    + destruct (key_eq b (JStr k)) eqn:Hbk; [|done].
      apply key_eq_str_r in Hbk as ->. congruence.
  - destruct (key_eq k' (JStr k)) eqn:Hk; [|done].
    apply key_eq_str_r in Hk as ->.
    destruct (key_eq b (JStr k)) eqn:Hbk; [|done].
    apply key_eq_str_r in Hbk as ->. cbn in Hb.
    by rewrite bool_decide_eq_true_2 in Hb.
Qed.

Lemma dict_find_foldl_skip (k : string) (items : list (json * json))
      (d : list (json * json)) :
  Forall (fun kt => kt.1 ≠ JStr k) items →
  dict_find (JStr k) (foldl (fun d kt => dict_set kt.1 kt.2 d) d items) =
  dict_find (JStr k) d.
Proof.
  revert d. induction items as [|[k' t] items IH]; intros d Hall; [done|].
  apply Forall_cons in Hall as [Hk Hall]. cbn [foldl]. rewrite IH by done.
  rewrite dict_find_set. cbn in *.
  destruct (key_eq k' (JStr k)) eqn:Heq; [|done].
  by apply key_eq_str_r in Heq.
Qed.

Lemma dict_find_foldl_source (k : string) (t : json) (items : list (json * json))
      (d : list (json * json)) :
  dict_find (JStr k) (foldl (fun d kt => dict_set kt.1 kt.2 d) d items) = Some t →
  dict_find (JStr k) d = Some t ∨ (JStr k, t) ∈ items.
Proof.
  revert d. induction items as [|[k' t'] items IH]; intros d; [by left|].
  cbn [foldl]. intros Hf. apply IH in Hf as [Hf|Hin].
  - rewrite dict_find_set in Hf. cbn in Hf.
    destruct (key_eq k' (JStr k)) eqn:Heq; [|by left].
    apply key_eq_str_r in Heq as ->. injection Hf as ->.
    right. apply list_elem_of_here.
  - right. by apply list_elem_of_further.
Qed.

Lemma keyed_Ok (t k' t' : json) :
  keyed t = Ok (k', t') → t' = t ∧ getitem_key t "key" = Ok k'.
Proof.
  unfold keyed, rbind. destruct (getitem_key t "key") as [k|e]; [|done].
  destruct k; cbn; try done; by intros [= <- <-].
Qed.

Lemma keyed_str (t : json) (k : string) :
  getitem_key t "key" = Ok (JStr k) → keyed t = Ok (JStr k, t).
Proof. intros Hk. unfold keyed, rbind. by rewrite Hk. Qed.

Lemma mapM_elem {A B} (f : A → result B) (l : list A) (l' : list B) (y : B) :
  mapM f l = Ok l' → y ∈ l' → ∃ x, x ∈ l ∧ f x = Ok y.
Proof.
  revert l'. induction l as [|x l IH]; intros l'; cbn.
  - intros [= <-] Hin. by apply elem_of_nil in Hin.
  - unfold rbind. destruct (f x) as [b|e] eqn:Hx; [|done].
    destruct (mapM f l) as [bs|e]; [|done]. intros [= <-] Hin.
    apply elem_of_cons in Hin as [->|Hin].
    + exists x. split; [apply list_elem_of_here|done].
    + destruct (IH bs eq_refl Hin) as (x' & Hx' & Hfx').
      exists x'. split; [by apply list_elem_of_further|done].
Qed.

Lemma mapM_app_inv {A B} (f : A → result B) (l1 l2 : list A) (x : A)
      (l' : list B) :
  mapM f (l1 ++ x :: l2) = Ok l' →
  ∃ l1' y l2', l' = l1' ++ y :: l2' ∧ mapM f l1 = Ok l1' ∧ f x = Ok y ∧
               mapM f l2 = Ok l2'.
Proof.
  revert l'. induction l1 as [|a l1 IH]; intros l'; cbn; unfold rbind.
  - destruct (f x) as [y|e]; [|done]. destruct (mapM f l2) as [l2'|e]; [|done].
    intros [= <-]. by exists [], y, l2'.
  - destruct (f a) as [b|e]; [|done].
    destruct (mapM f (l1 ++ x :: l2)) as [r|e] eqn:Hr; [|done].
    intros [= <-]. destruct (IH r eq_refl) as (l1' & y & l2' & -> & -> & Hy & Hl2).
    by exists (b :: l1'), y, l2'.
Qed.

Section TemplateManagerInitFacts.

Variable json_loads : string → result json.
Variable exn_str : exn → string.

(** Loading never changes the world; it returns the comprehension over
    the templates of the document or raises a [TemplateError]. *)
Lemma load_registry_inv (registry_path : path) (w : world)
      (r : result (list (json * json))) (w' : world) :
  run (_load_registry json_loads exn_str registry_path) w = (r, w') →
  w' = w ∧
  ((path_exists registry_path w = false ∧
    r = Raise (TemplateError
                 ("Registry not found at " +:+ path_str registry_path))) ∨
   (path_exists registry_path w = true ∧
    ∃ e, r = Raise (TemplateError ("Failed to load registry: " +:+ exn_str e))) ∨
   (∃ content data templates_value templates items,
       files w !! registry_path = Some (File content) ∧
       json_loads content = Ok data ∧
       dict_get_default data "templates" (JArr []) = Ok templates_value ∧
       iter templates_value = Ok templates ∧
       mapM keyed templates = Ok items ∧
       r = Ok (foldl (fun d kt => dict_set kt.1 kt.2 d) [] items))).
Proof.
  unfold _load_registry, run, bind, get, try_except, lift, raise, ret,
    any_exception, read_file.
  destruct (path_exists registry_path w) eqn:Hex; cbn [negb];
    [|intros [= <- <-]; split; [done|by left]].
  destruct (files w !! registry_path) as [[|content]|] eqn:Hfile;
    try (intros [= <- <-]; split; [done|right; left; split; [done|by eexists]]).
  destruct (json_loads content) as [data|e] eqn:Hdata;
    [|intros [= <- <-]; split; [done|right; left; split; [done|by eexists]]].
  destruct (dict_get_default data "templates" (JArr [])) as [v|e] eqn:Hv;
    [|intros [= <- <-]; split; [done|right; left; split; [done|by eexists]]].
  destruct (iter v) as [templates|e] eqn:Hiter;
    [|intros [= <- <-]; split; [done|right; left; split; [done|by eexists]]].
  destruct (mapM keyed templates) as [items|e] eqn:Hitems;
    [|intros [= <- <-]; split; [done|right; left; split; [done|by eexists]]].
  intros [= <- <-]. split; [done|]. right. right.
  by exists content, data, v, templates, items.
Qed.

End TemplateManagerInitFacts.



(** X17.  The loaded registry maps a string key to a template of the
    document that carries that key, and when several templates carry the
    same key, to the last of them. *)
Theorem load_registry_last_wins
        (json_loads : string → result json) (exn_str : exn → string)
        (registry_path : path) (w : world)
        (content : string) (data templates_value : json) (templates : list json)
        (registry : list (json * json)) (w' : world) :
  files w !! registry_path = Some (File content) →
  json_loads content = Ok data →
  dict_get_default data "templates" (JArr []) = Ok templates_value →
  iter templates_value = Ok templates →
  run (_load_registry json_loads exn_str registry_path) w = (Ok registry, w') →
  (∀ k t, dict_find (JStr k) registry = Some t →
          t ∈ templates ∧ getitem_key t "key" = Ok (JStr k)) ∧
  (∀ k t before after,
      templates = before ++ t :: after →
      getitem_key t "key" = Ok (JStr k) →
      Forall (fun t' => getitem_key t' "key" ≠ Ok (JStr k)) after →
      dict_find (JStr k) registry = Some t).
Proof.
  intros Hfile Hloads Hv Hiter Hrun.
  apply load_registry_inv in Hrun
    as [_ [[_ [=]]|[[_ [e [=]]]|(c & d & v & ts & items & Hf & Hd & Hv' & Hi & Hitems & [= ->])]]].
  rewrite Hfile in Hf. injection Hf as <-.
  rewrite Hloads in Hd. injection Hd as <-.
  rewrite Hv in Hv'. injection Hv' as <-.
  rewrite Hiter in Hi. injection Hi as <-.
  split.
  - intros k t Hfind.
    apply dict_find_foldl_source in Hfind as [Hfind|Hin]; [done|].
    destruct (mapM_elem keyed templates items _ Hitems Hin) as (t0 & Ht0 & Hkey).
    apply keyed_Ok in Hkey as [-> Hkey]. by split.
  - intros k t before after -> Hkey Hafter.
    apply mapM_app_inv in Hitems as (i1 & y & i2 & -> & _ & Hy & Hi2).
    rewrite (keyed_str t k Hkey) in Hy. injection Hy as <-.
    rewrite foldl_app. cbn [foldl fst snd].
    rewrite dict_find_foldl_skip.
    + rewrite dict_find_set. cbn. by rewrite bool_decide_eq_true_2.
    + apply Forall_forall. intros [k' t'] Hin. cbn. intros ->.
      destruct (mapM_elem keyed after i2 _ Hi2 Hin) as (t0 & Ht0 & Hk0).
      apply keyed_Ok in Hk0 as [-> Hk0].
      rewrite Forall_forall in Hafter. by apply (Hafter t0).
Qed.

Lemma load_registry_last_wins_witness :
  ∃ registry,
    fst (run (_load_registry loads_registry exn_name registry_file)
           configured_world) = Ok registry ∧
    dict_find (JStr "demo") registry =
      Some (entry "demo" "https://example.org/new.git").
Proof.
  pose (out := run (_load_registry loads_registry exn_name registry_file)
                 configured_world).
  assert (∃ registry, fst out = Ok registry) as [registry Hr]
    by (eexists; vm_compute; reflexivity).
  exists registry. split; [exact Hr|].
  destruct (load_registry_last_wins loads_registry exn_name registry_file
              configured_world "REGISTRY" registry_document
              (JArr [entry "demo" "https://example.org/old.git";
                     entry "other" "https://example.org/other.git";
                     entry "demo" "https://example.org/new.git"])
              [entry "demo" "https://example.org/old.git";
               entry "other" "https://example.org/other.git";
               entry "demo" "https://example.org/new.git"]
              registry (snd out))
    as [_ Hlast]; try reflexivity.
  { rewrite <- Hr. apply surjective_pairing. }
  apply (Hlast "demo" _
           [entry "demo" "https://example.org/old.git";
            entry "other" "https://example.org/other.git"] []);
    [reflexivity|reflexivity|constructor].
Defined.

Lemma mkdir_each_ok (ps : list path) (w w' : world) :
  run (mkdir_each ps) w = (Ok tt, w') →
  git_log w' = git_log w ∧
  (∀ q n, files w !! q = Some n → files w' !! q = Some n) ∧
  Forall (fun q => files w' !! q = Some Dir) ps.
Proof.
  revert w. induction ps as [|q ps IH]; intros w.
  - intros [= <-]. by repeat split.
  - cbn [mkdir_each]. unfold run, bind, get, put, raise.
    destruct (files w !! q) as [[|text]|] eqn:Hq; [|done|].
    + intros Hrun. apply IH in Hrun as (Hlog & Hkeep & Hall).
      split; [done|]. split; [done|]. constructor; [by apply Hkeep|done].
    + intros Hrun. apply IH in Hrun as (Hlog & Hkeep & Hall). cbn in *.
      split; [done|]. split.
      * intros q' n Hq'. apply Hkeep. rewrite lookup_insert_ne; [done|].
        intros ->. congruence.
      * constructor; [|done]. apply Hkeep. by rewrite lookup_insert_eq.
Qed.

Lemma self_among_ancestors (pre p : path) :
  p ≠ [] → pre ++ p ∈ ancestors_and_self pre p.
Proof.
  revert pre. induction p as [|x r IH]; intros pre Hne; [done|].
  cbn [ancestors_and_self]. destruct r as [|y r].
  - apply list_elem_of_here.
  - apply list_elem_of_further.
    replace (pre ++ x :: y :: r) with ((pre ++ [x]) ++ y :: r)
      by (by rewrite <- app_assoc).
    by apply IH.
Qed.

(** X18.  Constructing the template manager: when the registry cannot
    be loaded the constructor raises that error and creates nothing;
    when it returns, the registry is the loaded one, the cache directory
    exists, no git command has been run and every path that existed
    before still exists with the same content. *)
Theorem init_cache_directory
        (json_loads : string → result json) (exn_str : exn → string)
        (registry_path cache_dir : path) (w : world)
        (r : result (list (json * json))) (w' : world) :
  run (__init__ json_loads exn_str registry_path cache_dir) w = (r, w') →
  (∀ e, fst (run (_load_registry json_loads exn_str registry_path) w) = Raise e →
        r = Raise e ∧ w' = w) ∧
  (∀ registry, r = Ok registry →
     fst (run (_load_registry json_loads exn_str registry_path) w) = Ok registry ∧
     (cache_dir ≠ [] → path_exists cache_dir w' = true) ∧
     git_log w' = git_log w ∧
     (∀ q n, files w !! q = Some n → files w' !! q = Some n)).
Proof.
  unfold __init__. intros Hrun.
  apply bind_inv in Hrun as [(e & Hload & ->)|(registry & w1 & Hload & Hrun)].
  - pose proof (load_registry_inv _ _ _ _ _ _ Hload) as [-> _].
    rewrite Hload. cbn [fst]. split; [|done]. by intros e' [= <-].
  - pose proof (load_registry_inv _ _ _ _ _ _ Hload) as [-> _].
    rewrite Hload. cbn [fst]. split; [done|].
    intros registry' ->.
    apply bind_inv in Hrun as [(e & [=] & _)|(w2 & w3 & [= <- <-] & Hrun)].
    apply bind_inv in Hrun as [(e & _ & [=])|([] & w4 & Hmk & [= <- <-])].
    split; [done|].
    destruct (path_exists cache_dir w) eqn:Hex; cbn [negb] in Hmk.
    + injection Hmk as <-. by repeat split.
    + apply mkdir_each_ok in Hmk as (Hlog & Hkeep & Hall).
      split; [|by split].
      intros Hne. unfold path_exists. apply bool_decide_eq_true_2.
      rewrite Forall_forall in Hall.
      exists Dir. apply Hall. by apply (self_among_ancestors []).
Qed.

Lemma init_cache_directory_witness :
  let out := run (__init__ loads_registry exn_name registry_file demo_cache)
               configured_world in
  path_exists demo_cache (snd out) = true ∧
  files (snd out) !! registry_file = Some (File "REGISTRY") ∧
  git_log (snd out) = [].
Proof.
  intros out.
  assert (∃ registry, fst out = Ok registry) as [registry Hr]
    by (eexists; vm_compute; reflexivity).
  destruct (init_cache_directory loads_registry exn_name registry_file demo_cache
              configured_world (fst out) (snd out))
    as [_ Hok]; [apply surjective_pairing|].
  destruct (Hok registry Hr) as (_ & Hdir & Hlog & Hkeep).
  split; [by apply Hdir|]. split; [by apply Hkeep|exact Hlog].
Defined.
